(** * AutoPack: field extraction and page-range compression

    A shallow embedding of [extract_parts.py]: the labelled-field extractor
    ([extract_first_value], [extract_first_part], [extract_first_asm],
    [extract_first_job]) and the per-document loop of [main] that compresses
    consecutive pages with the same (Part, Asm) pair into page ranges.

    Text is modelled as [string]; a character is a code point below 256
    and the character tables ([is_space], [is_word], [to_lower]) are the
    ones Python uses for [str] on that range.  The regular expression of
    [extract_first_value] is kept as a syntax tree and run by a small
    backtracking matcher with the priorities of [re]: leftmost start,
    greedy repetition, first alternative that lets the rest match.  A
    document is the list of its page texts ([page.extract_text() or '']),
    in page order.

    The development also covers what [main] writes to the report file, and
    from [organize_by_job.py] the reading of the job from that file
    ([get_job_from_parts_txt]), the folder name ([safe_folder_name]) and
    the choice of the name a moved file gets in the folder ([move_pdf]),
    the answers of [Path.exists()] being given as a function of the
    name. *)

From Stdlib Require Import Bool Arith Lia List Ascii String.
From Stdlib Require Import Numbers.DecimalString Numbers.DecimalNat.
From Stdlib Require Import Sorted.
Import ListNotations.
Open Scope string_scope.
Open Scope nat_scope.

(** ** Characters *)

Module Chars.

Definition LF : ascii := "010"%char.
Definition CR : ascii := "013"%char.

Definition between (lo hi n : nat) : bool := (lo <=? n) && (n <=? hi).

(** [str.isspace], which is also the regex category [\s] of a [str]
    pattern. *)
Definition is_space (c : ascii) : bool :=
  let n := nat_of_ascii c in
  between 9 13 n || between 28 32 n || (n =? 133) || (n =? 160).

(** [str.isalnum] or the underscore: the regex category [\w]. *)
Definition is_word (c : ascii) : bool :=
  let n := nat_of_ascii c in
  between 48 57 n || between 65 90 n || (n =? 95) || between 97 122 n
  || (n =? 170) || between 178 179 n || (n =? 181) || between 185 186 n
  || between 188 190 n || between 192 214 n || between 216 246 n
  || between 248 255 n.

(** [str.lower] on one character. *)
Definition to_lower (c : ascii) : ascii :=
  let n := nat_of_ascii c in
  if between 65 90 n || (between 192 222 n && negb (n =? 215))
  then ascii_of_nat (n + 32) else c.

End Chars.
Import Chars.

(** ** The fragment of [re] the extractor uses *)

Module Re.

(** Sets of characters, tested under the IGNORECASE flag. *)
Inductive charset : Type :=
| LITERAL (c : ascii)
| CATEGORY_SPACE
| NOT_IN (cs : list ascii).

Definition cs_mem (cs : charset) (c : ascii) : bool :=
  match cs with
  | LITERAL l => Ascii.eqb (to_lower c) (to_lower l)
  | CATEGORY_SPACE => is_space c
  | NOT_IN l => negb (existsb (Ascii.eqb c) l)
  end.

Inductive regex : Type :=
| EMPTY
| AT_BOUNDARY
| IN (cs : charset)
| MAX_REPEAT (min : nat) (cs : charset)
| SUBPATTERN (r : regex)
| CAT (r1 r2 : regex).

(** The matcher's position: the character just before the cursor, the
    text from the cursor on, and what group 1 captured so far. *)
Record mstate : Type := MState {
  m_prev : option ascii;
  m_rest : string;
  m_group : option string
}.

Definition opt_word (oc : option ascii) : bool :=
  match oc with Some c => is_word c | None => false end.

Definition next_char (s : string) : option ascii :=
  match s with String c _ => Some c | EmptyString => None end.

Definition at_boundary (prev : option ascii) (s : string) : bool :=
  xorb (opt_word prev) (opt_word (next_char s)).

(** Greedy repetition of a one-character set: take as many as possible,
    give them back one at a time while the continuation fails; [n] is the
    number of repetitions still required. *)
Fixpoint max_repeat {A : Type} (cs : charset) (n : nat)
    (prev : option ascii) (s : string)
    (k : option ascii -> string -> option A) : option A :=
  let stop := if n =? 0 then k prev s else None in
  match s with
  | String c s' =>
      if cs_mem cs c then
        match max_repeat cs (pred n) (Some c) s' k with
        | Some m => Some m
        | None => stop
        end
      else stop
  | EmptyString => stop
  end.

(** Backtracking match of [r] at the cursor, continuing with [k]. *)
Fixpoint run {A : Type} (r : regex) (st : mstate)
    (k : mstate -> option A) : option A :=
  match r with
  | EMPTY => k st
  | AT_BOUNDARY =>
      if at_boundary (m_prev st) (m_rest st) then k st else None
  | IN cs =>
      match m_rest st with
      | String c s' =>
          if cs_mem cs c then k (MState (Some c) s' (m_group st)) else None
      | EmptyString => None
      end
  | MAX_REPEAT n cs =>
      max_repeat cs n (m_prev st) (m_rest st)
        (fun p s => k (MState p s (m_group st)))
  | SUBPATTERN r1 =>
      let s0 := m_rest st in
      run r1 st (fun st' =>
        k (MState (m_prev st') (m_rest st')
             (Some (substring 0 (length s0 - length (m_rest st')) s0))))
  | CAT r1 r2 => run r1 st (fun st' => run r2 st' k)
  end.

(** [pattern.match] anchored at the cursor: group 1 of the first way the
    pattern matches there. *)
Definition match_here (r : regex) (prev : option ascii) (s : string)
  : option (option string) :=
  run r (MState prev s None) (fun st => Some (m_group st)).

(** [re.search]: the anchored match at the leftmost position that has one. *)
Fixpoint search_from (r : regex) (prev : option ascii) (s : string)
  : option (option string) :=
  match match_here r prev s with
  | Some g => Some g
  | None =>
      match s with
      | String c s' => search_from r (Some c) s'
      | EmptyString => None
      end
  end.

Definition search (r : regex) (text : string) : option (option string) :=
  search_from r None text.

(** [re.escape(label)] under [(?i)]: the label's characters, each matched
    literally up to case. *)
Fixpoint escape (label : string) : regex :=
  match label with
  | EmptyString => EMPTY
  | String c l => CAT (IN (LITERAL c)) (escape l)
  end.

End Re.
Import Re.

(** ** FieldExtractor *)

(** [rf"(?i)\b{re.escape(label)}\s*:\s*([^\r\n]+)"] *)
Definition label_pattern (label : string) : regex :=
  CAT AT_BOUNDARY
 (CAT (escape label)
 (CAT (MAX_REPEAT 0 CATEGORY_SPACE)
 (CAT (IN (LITERAL ":"))
 (CAT (MAX_REPEAT 0 CATEGORY_SPACE)
      (SUBPATTERN (MAX_REPEAT 1 (NOT_IN [CR; LF]))))))).

Fixpoint lstrip (s : string) : string :=
  match s with
  | String c s' => if is_space c then lstrip s' else s
  | EmptyString => EmptyString
  end.

Fixpoint rstrip (s : string) : string :=
  match s with
  | String c s' =>
      match rstrip s' with
      | EmptyString => if is_space c then EmptyString else String c EmptyString
      | r => String c r
      end
  | EmptyString => EmptyString
  end.

(** [str.strip()] *)
Definition strip (s : string) : string := rstrip (lstrip s).

(** [value or None] for a string. *)
Definition or_None (value : string) : option string :=
  if String.eqb value EmptyString then None else Some value.

(** [x or None] for an optional string; [not x] holds exactly when this is
    [None]. *)
Definition opt_or_None (x : option string) : option string :=
  match x with Some v => or_None v | None => None end.

Definition extract_first_value (text label : string) : option string :=
  match search (label_pattern label) text with
  | None => None
  | Some None => None
  | Some (Some g) => or_None (strip g)
  end.

(** ["/" in value] and [value.split("/", 1)[0]] *)
Fixpoint contains_slash (s : string) : bool :=
  match s with
  | String c s' => Ascii.eqb c "/" || contains_slash s'
  | EmptyString => false
  end.

Fixpoint before_slash (s : string) : string :=
  match s with
  | String c s' => if Ascii.eqb c "/" then EmptyString
                   else String c (before_slash s')
  | EmptyString => EmptyString
  end.

Definition extract_first_part (text : string) : option string :=
  match opt_or_None (extract_first_value text "Part") with
  | None => None
  | Some value =>
      let value := if contains_slash value
                   then strip (before_slash value) else value in
      or_None value
  end.

Definition extract_first_asm (text : string) : option string :=
  extract_first_value text "Asm".

Definition extract_first_job (text : string) : option string :=
  extract_first_value text "Job".

(** ** RangeCompressor: the per-document loop of [main] *)

(** The four values [flush_range] interpolates into one row of the report. *)
Record RangeRecord : Type := mkRange {
  start_page : nat;
  end_page : nat;
  part : string;
  asm : string
}.

Definition decimal (n : nat) : string :=
  NilEmpty.string_of_uint (Nat.to_uint n).

(** The f-strings of [flush_range]. *)
Definition page_label (r : RangeRecord) : string :=
  if start_page r =? end_page r
  then "Page " ++ decimal (start_page r)
  else "Page " ++ decimal (start_page r) ++ "-" ++ decimal (end_page r).

Definition format_row (r : RangeRecord) : string :=
  page_label r ++ "  Asm: " ++ asm r ++ "  Part: " ++ part r.

(** The local variables of the loop over one document's pages;
    [file_rows] holds the rows before formatting. *)
Record loop_state : Type := mkState {
  job_value : option string;
  last_part : option string;
  last_asm : option string;
  range_start : option nat;
  range_end : option nat;
  file_rows : list RangeRecord
}.

Definition init_state : loop_state :=
  mkState None None None None None [].

(** [last_asm or ''] *)
Definition or_empty (x : option string) : string :=
  match x with Some v => v | None => EmptyString end.

(** [flush_range()]: the value of [file_rows] after the call. *)
Definition flush_range (st : loop_state) : list RangeRecord :=
  match last_part st, range_start st, range_end st with
  | Some p, Some s, Some e =>
      (file_rows st ++ [mkRange s e p (or_empty (last_asm st))])%list
  | _, _, _ => file_rows st
  end.

Definition opt_string_eqb (x y : option string) : bool :=
  match x, y with
  | Some a, Some b => String.eqb a b
  | None, None => true
  | _, _ => false
  end.

Definition is_some {A : Type} (x : option A) : bool :=
  match x with Some _ => true | None => false end.

(** One iteration of [for idx, page in enumerate(reader.pages, start=1)]
    on the page text [text]. *)
Definition step (st : loop_state) (idx : nat) (text : string) : loop_state :=
  let job :=
    match job_value st with
    | None => opt_or_None (extract_first_job text)
    | Some j => Some j
    end in
  match opt_or_None (extract_first_part text) with
  | None =>
      mkState job (last_part st) (last_asm st)
              (range_start st) (range_end st) (file_rows st)
  | Some p =>
      let a := or_empty (opt_or_None (extract_first_asm text)) in
      match last_part st with
      | None => mkState job (Some p) (Some a) (Some idx) (Some idx)
                        (file_rows st)
      | Some lp =>
          if String.eqb p lp && opt_string_eqb (Some a) (last_asm st)
             && is_some (range_end st)
          then mkState job (last_part st) (last_asm st)
                       (range_start st) (Some idx) (file_rows st)
          else mkState job (Some p) (Some a) (Some idx) (Some idx)
                       (flush_range st)
      end
  end.

(** [enumerate(reader.pages, start=1)] *)
Fixpoint enumerate {A : Type} (start : nat) (l : list A) : list (nat * A) :=
  match l with
  | [] => []
  | x :: l' => (start, x) :: enumerate (S start) l'
  end.

Definition loop (st : loop_state) (ipages : list (nat * string))
  : loop_state :=
  fold_left (fun st ip => step st (fst ip) (snd ip)) ipages st.

(** The result of the loop and of the final [flush_range()]: the range
    records of the document and its job value. *)
Record DocumentReport : Type := mkReport {
  records : list RangeRecord;
  job : option string
}.

Definition compress (pages : list string) : DocumentReport :=
  let st := loop init_state (enumerate 1 pages) in
  mkReport (flush_range st) (job_value st).

(** [f"Job: {job_value}"] and [f"File: {pdf.name}"] *)
Definition job_line (j : string) : string := "Job: " ++ j.
Definition file_line (name : string) : string := "File: " ++ name.

(** What one document appends to [rows]; [name] is [pdf.name]. *)
Definition document_rows (name : string) (pages : list string)
  : list string :=
  let rep := compress pages in
  match records rep with
  | [] => []
  | _ :: _ =>
      ((match opt_or_None (job rep) with
        | Some j => [job_line j]
        | None => []
        end)
       ++ [file_line name]
       ++ map format_row (records rep)
       ++ [EmptyString])%list
  end.

(** ** Notions used to state the properties *)

(** A line feed, for writing page texts of several lines. *)
Definition nl : string := String LF EmptyString.

(** The Asm value the loop compares: [extract_first_asm(text) or '']. *)
Definition page_asm (text : string) : string :=
  or_empty (extract_first_asm text).

(** The run-related variables of the loop (everything but [job_value]). *)
Definition run_vars (st : loop_state) :=
  (last_part st, last_asm st, range_start st, range_end st, file_rows st).

(** The first Job value found in page order. *)
Fixpoint first_job (pages : list string) : option string :=
  match pages with
  | [] => None
  | text :: rest =>
      match extract_first_job text with
      | Some j => Some j
      | None => first_job rest
      end
  end.

(** The text of the page with 1-based index [i]. *)
Definition page_at (pages : list string) (i : nat) : option string :=
  match i with
  | 0 => None
  | S k => nth_error pages k
  end.

(** Every qualifying page with index in [lo, hi] yields part [p] and,
    after the default, asm [a]. *)
Definition pages_agree (pages : list string) (lo hi : nat) (p a : string)
  : Prop :=
  forall (i : nat) (text q : string),
    lo <= i <= hi -> page_at pages i = Some text ->
    extract_first_part text = Some q ->
    q = p /\ page_asm text = a.

(** What every emitted record satisfies with respect to the pages read. *)
Definition good_range (pages : list string) (r : RangeRecord) : Prop :=
  1 <= start_page r /\ start_page r <= end_page r
  /\ end_page r <= List.length pages
  /\ pages_agree pages (start_page r) (end_page r) (part r) (asm r).

(** The open run covers every page read since it started. *)
Definition run_inv (done : list string) (st : loop_state) : Prop :=
  match last_part st with
  | None => True
  | Some p =>
      exists (a : string) (s e : nat),
        last_asm st = Some a /\ range_start st = Some s
        /\ range_end st = Some e
        /\ 1 <= s /\ s <= e /\ e <= List.length done
        /\ pages_agree done s (List.length done) p a
  end.

(** The invariant of the loop after the pages [done]. *)
Definition loop_inv (done : list string) (st : loop_state) : Prop :=
  Forall (good_range done) (file_rows st) /\ run_inv done st.

(** [s.startswith(pre)] *)
Fixpoint starts_with (pre s : string) : bool :=
  match pre, s with
  | EmptyString, _ => true
  | String a pre', String b s' => Ascii.eqb a b && starts_with pre' s'
  | String _ _, EmptyString => false
  end.

(** A header line of the report. *)
Definition is_job_header (row : string) : bool := starts_with "Job: " row.

(** The label is at the cursor, up to case. *)
Fixpoint ci_prefix (label s : string) : bool :=
  match label, s with
  | EmptyString, _ => true
  | String l label', String c s' => cs_mem (LITERAL l) c && ci_prefix label' s'
  | String _ _, EmptyString => false
  end.



(** The anchored match at offset [i] of [s]. *)
Fixpoint match_at_from (r : regex) (prev : option ascii) (s : string)
    (i : nat) {struct i} : option (option string) :=
  match i with
  | 0 => match_here r prev s
  | S k =>
      match s with
      | String c s' => match_at_from r (Some c) s' k
      | EmptyString => None
      end
  end.

(** The label pattern matches at offset [i] of the text. *)
Definition occurs_at (text label : string) (i : nat) : bool :=
  is_some (match_at_from (label_pattern label) None text i).

(** The value of the occurrence at offset [i]: its capture, stripped. *)
Definition value_at (text label : string) (i : nat) : option string :=
  match match_at_from (label_pattern label) None text i with
  | Some (Some g) => or_None (strip g)
  | _ => None
  end.

(** The value with everything from the first slash on removed and the
    remainder stripped, when it has a slash. *)
Definition truncate_at_slash (value : string) : string :=
  if contains_slash value then strip (before_slash value) else value.

(** [extract_part] as the specification words it: the extracted Part
    value, truncated. *)
Definition extract_part_spec (text : string) : option string :=
  option_map truncate_at_slash (extract_first_value text "Part").

(** ** Further notions: values, records, the report and the job folder *)

(** Every character of [s] satisfies [p]. *)
Fixpoint string_forall (p : ascii -> bool) (s : string) : bool :=
  match s with
  | String c s' => p c && string_forall p s'
  | EmptyString => true
  end.

(** The character before the cursor after reading [s]. *)
Fixpoint last_char (prev : option ascii) (s : string) : option ascii :=
  match s with
  | String c s' => last_char (Some c) s'
  | EmptyString => prev
  end.

(** [l] is the label, up to case. *)
Fixpoint ci_equal (label l : string) : bool :=
  match label, l with
  | EmptyString, EmptyString => true
  | String a label', String c l' => cs_mem (LITERAL a) c && ci_equal label' l'
  | _, _ => false
  end.

(** [v] is a contiguous piece of [text]. *)
Definition piece_of (v text : string) : Prop :=
  exists pre post : string, text = pre ++ v ++ post.

(** [t] does not start with whitespace. *)
Definition no_lead (t : string) : Prop :=
  match t with
  | String c _ => is_space c = false
  | EmptyString => True
  end.

(** [str.lower()] *)
Fixpoint lower (s : string) : string :=
  match s with
  | String c s' => String (to_lower c) (lower s')
  | EmptyString => EmptyString
  end.

(** No occurrence of the label starts inside [pre] when [suf] follows. *)
Fixpoint absent_before (label pre suf : string) : bool :=
  match pre with
  | EmptyString => true
  | String c pre' =>
      negb (ci_prefix label (pre ++ suf)) && absent_before label pre' suf
  end.

(** The text ends here or a line break follows. *)
Definition ends_line (rest : string) : bool :=
  match rest with
  | EmptyString => true
  | String c _ => negb (cs_mem (NOT_IN [CR; LF]) c)
  end.

(** A repetition of [cs] cannot go on into [rest]. *)
Definition stops (cs : charset) (rest : string) : bool :=
  match rest with
  | EmptyString => true
  | String c _ => negb (cs_mem cs c)
  end.

(** [c] is a carriage return or a line feed: what the capture of the
    pattern stops at. *)
Definition is_break (c : ascii) : bool := negb (cs_mem (NOT_IN [CR; LF]) c).

(** The text up to its first line break. *)
Fixpoint take_line (s : string) : string :=
  match s with
  | String c s' =>
      if cs_mem (NOT_IN [CR; LF]) c then String c (take_line s')
      else EmptyString
  | EmptyString => EmptyString
  end.

(** The records so far, latest first, after one more indexed page: what
    one loop iteration and a later [flush_range()] amount to. *)
Definition absorb (acc : list RangeRecord) (ip : nat * string)
  : list RangeRecord :=
  match extract_first_part (snd ip) with
  | None => acc
  | Some p =>
      let a := page_asm (snd ip) in
      match acc with
      | r :: acc' =>
          if String.eqb p (part r) && String.eqb a (asm r)
          then mkRange (start_page r) (fst ip) p a :: acc'
          else mkRange (fst ip) (fst ip) p a :: acc
      | [] => [mkRange (fst ip) (fst ip) p a]
      end
  end.

(** The loop variables are set together: no run, no rows. *)
Definition wf_state (st : loop_state) : Prop :=
  match last_part st with
  | None => file_rows st = []
  | Some _ =>
      exists (a : string) (s e : nat),
        last_asm st = Some a /\ range_start st = Some s
        /\ range_end st = Some e
  end.

(** Page [i] yields part [p] and, after the default, asm [a]. *)
Definition qualifies (pages : list string) (i : nat) (p a : string) : Prop :=
  exists text : string,
    page_at pages i = Some text /\ extract_first_part text = Some p
    /\ page_asm text = a.

(** A record lies within the pages and starts and ends on pages that
    yield its part and asm. *)
Definition anchored (pages : list string) (r : RangeRecord) : Prop :=
  1 <= start_page r /\ start_page r <= end_page r
  /\ end_page r <= List.length pages
  /\ qualifies pages (start_page r) (part r) (asm r)
  /\ qualifies pages (end_page r) (part r) (asm r).

(** [r1] ends on a page before [r2] starts. *)
Definition before (r1 r2 : RangeRecord) : Prop :=
  end_page r1 < start_page r2.

(** The two records have the same part and asm. *)
Definition same_fields (r1 r2 : RangeRecord) : Prop :=
  part r1 = part r2 /\ asm r1 = asm r2.

(** Neighbours in the list differ in part or asm. *)
Fixpoint adj_differ (acc : list RangeRecord) : Prop :=
  match acc with
  | x :: ((y :: _) as tl) => ~ same_fields x y /\ adj_differ tl
  | _ => True
  end.

(** Every qualifying page is in a record that has its part and asm. *)
Definition covers (pages : list string) (acc : list RangeRecord) : Prop :=
  forall (i : nat) (p a : string),
    qualifies pages i p a ->
    exists r : RangeRecord,
      In r acc /\ start_page r <= i <= end_page r
      /\ part r = p /\ asm r = a.

(** What the records, latest first, keep while pages are absorbed. *)
Definition acc_inv (pages : list string) (acc : list RangeRecord) : Prop :=
  Forall (anchored pages) acc
  /\ StronglySorted (fun r r' => before r' r) acc
  /\ adj_differ acc
  /\ covers pages acc.

(** ** The report file written by [main] *)

(** [rows] after the loop over the documents; a document is its
    [pdf.name] and its page texts. *)
Definition main_rows (pdfs : list (string * list string)) : list string :=
  flat_map (fun pdf => document_rows (fst pdf) (snd pdf)) pdfs.

(** ["\n".join(rows)] *)
Fixpoint join_lines (rows : list string) : string :=
  match rows with
  | [] => EmptyString
  | [row] => row
  | row :: rest => row ++ nl ++ join_lines rest
  end.

(** ["\n".join(rows).rstrip() + "\n"] *)
Definition output_text (rows : list string) : string :=
  rstrip (join_lines rows) ++ nl.

(** What [main] does once the documents are read: it reports that there
    are no PDFs, or no Part values, or writes the text and reports the
    number of rows.  The exit status is 0 in all three cases. *)
Inductive outcome : Type :=
| No_PDFs_found
| No_Part_values_found
| Wrote (text : string) (lines : nat).

Definition report (pdfs : list (string * list string)) : outcome :=
  match pdfs with
  | [] => No_PDFs_found
  | _ :: _ =>
      match main_rows pdfs with
      | [] => No_Part_values_found
      | rows => Wrote (output_text rows) (List.length rows)
      end
  end.

(** ** organize_by_job.py *)

(** The line boundaries of [str.splitlines] among the code points below
    256: LF, VT, FF, CR, FS, GS, RS and NEL. *)
Definition is_line_break (c : ascii) : bool :=
  let n := nat_of_ascii c in
  between 10 13 n || between 28 30 n || (n =? 133).

(** [str.splitlines()]: CR LF counts as one boundary and a final boundary
    opens no further line. *)
Fixpoint splitlines (s : string) : list string :=
  match s with
  | EmptyString => []
  | String c s' =>
      if is_line_break c then
        EmptyString ::
          match s' with
          | String d s'' =>
              if Ascii.eqb c CR && Ascii.eqb d LF
              then splitlines s'' else splitlines s'
          | EmptyString => []
          end
      else
        match splitlines s' with
        | [] => [String c EmptyString]
        | line :: lines => String c line :: lines
        end
  end.

(** [line.split(":", 1)[1]]; [None] stands for the IndexError of a line
    without a colon. *)
Fixpoint after_colon (line : string) : option string :=
  match line with
  | EmptyString => None
  | String c s' => if Ascii.eqb c ":" then Some s' else after_colon s'
  end.

(** The loop of [get_job_from_parts_txt] over the lines. *)
Fixpoint first_job_line (lines : list string) : option string :=
  match lines with
  | [] => None
  | line :: rest =>
      if starts_with "job:" (lower (strip line))
      then match after_colon line with
           | Some v => or_None (strip v)
           | None => None
           end
      else first_job_line rest
  end.

(** [content] is [None] when [parts_txt] is not a file, and otherwise the
    text [read_text] returns. *)
Definition get_job_from_parts_txt (content : option string) : option string :=
  match content with
  | None => None
  | Some text => first_job_line (splitlines text)
  end.

(** The character class of [safe_folder_name]: less-than, greater-than,
    colon, double quote (34), slash, backslash (92), bar, question mark
    and star. *)
Definition forbidden (c : ascii) : bool :=
  existsb (Ascii.eqb c)
    ["<"; ">"; ":"; "034"; "/"; "092"; "|"; "?"; "*"]%char.

(** [re.sub] of that class by an underscore. *)
Fixpoint replace_forbidden (name : string) : string :=
  match name with
  | String c s' =>
      String (if forbidden c then "_"%char else c) (replace_forbidden s')
  | EmptyString => EmptyString
  end.

(** [s.rstrip(".")] *)
Fixpoint rstrip_dots (s : string) : string :=
  match s with
  | String c s' =>
      match rstrip_dots s' with
      | EmptyString =>
          if Ascii.eqb c "." then EmptyString else String c EmptyString
      | r => String c r
      end
  | EmptyString => EmptyString
  end.

Definition safe_folder_name (name : string) : string :=
  rstrip_dots (strip (replace_forbidden name)).

(** [f"Job - {job}"], made safe: the folder of a job under History. *)
Definition job_folder (job : string) : string :=
  safe_folder_name ("Job - " ++ job).

(** [f"{stem} ({i}){suffix}"] *)
Definition candidate (stem suffix : string) (i : nat) : string :=
  stem ++ " (" ++ decimal i ++ ")" ++ suffix.

(** What [Path.exists()] does with a name in the destination folder: it
    answers [True] or [False], or it raises. *)
Inductive probe : Type := Present | Missing | Fails.

(** How the choice of the destination ends: with a name, with the
    exception of an [exists()] call, or not within the rounds allowed. *)
Inductive choice : Type :=
  | Chosen (dest : string)
  | Raised
  | Unfinished.

Section MovePdf.

(** The answers of [Path.exists()].  [move_pdf] asks about a name at most
    once, so nothing is assumed on how the answers come about or whether
    the folder changes between two calls. *)
Variable path_exists : string -> probe.

(** The [while True] loop of [move_pdf], cut off after [fuel] rounds. *)
Fixpoint first_free (fuel : nat) (stem suffix : string) (i : nat) : choice :=
  match fuel with
  | 0 => Unfinished
  | S fuel' =>
      match path_exists (candidate stem suffix i) with
      | Present => first_free fuel' stem suffix (S i)
      | Missing => Chosen (candidate stem suffix i)
      | Fails => Raised
      end
  end.

(** The [dest_path] that [move_pdf] hands to [shutil.move]; [pdf.name] is
    [stem ++ suffix]. *)
Definition move_pdf (fuel : nat) (stem suffix : string) : choice :=
  match path_exists (stem ++ suffix) with
  | Present => first_free fuel stem suffix 1
  | Missing => Chosen (stem ++ suffix)
  | Fails => Raised
  end.

End MovePdf.

(** [c] is not a line boundary. *)
Definition no_break (c : ascii) : bool := negb (is_line_break c).

(** [c] is not one of the replaced characters. *)
Definition allowed (c : ascii) : bool := negb (forbidden c).

(** A decimal digit. *)
Definition is_digit (c : ascii) : bool := between 48 57 (nat_of_ascii c).

(** [rest] does not start with a digit. *)
Definition stops_digit (rest : string) : bool :=
  match rest with
  | EmptyString => true
  | String c _ => negb (is_digit c)
  end.

(** The part of a page label after the first page number. *)
Definition label_tail (r : RangeRecord) : string :=
  if start_page r =? end_page r then EmptyString
  else "-" ++ decimal (end_page r).

(** ** Worked examples *)

Example example_part_truncated :
  extract_first_part "Part: A123/B456" = Some "A123".
Proof. vm_compute. reflexivity. Qed.
Example example_blank_value :
  extract_first_value ("Part:   " ++ nl) "Part" = None.
Proof. vm_compute. reflexivity. Qed.
Example example_value_on_next_line :
  extract_first_value ("Part:" ++ nl ++ "A1") "Part" = Some "A1".
Proof. vm_compute. reflexivity. Qed.
Example example_inside_word : extract_first_value "Subpart: X" "Part" = None.
Proof. vm_compute. reflexivity. Qed.
Example example_case_and_spaces :
  extract_first_value ("pArT : X  " ++ nl ++ "Part: Y") "Part" = Some "X".
Proof. vm_compute. reflexivity. Qed.
Example example_dash_label : extract_first_value "a-: 1" "-" = Some "1".
Proof. vm_compute. reflexivity. Qed.
Example example_nothing_before_slash : extract_first_part "Part: /B456" = None.
Proof. vm_compute. reflexivity. Qed.

Example example_end_to_end :
  document_rows "t.pdf"
    [ "Job: 500" ++ nl ++ "Asm: A1" ++ nl ++ "Part: P1";
      "Part: P1" ++ nl ++ "Asm: A1";
      "Part: P2" ++ nl ++ "Asm: A1" ]
  = [ "Job: 500"; "File: t.pdf";
      "Page 1-2  Asm: A1  Part: P1";
      "Page 3  Asm: A1  Part: P2"; EmptyString ].
Proof. vm_compute. reflexivity. Qed.

Example example_job_without_rows : document_rows "t.pdf" ["Job: 500"] = []
  /\ job (compress ["Job: 500"]) = Some "500".
Proof. vm_compute. split; reflexivity. Qed.

(** ** Basic facts about the extractor's results *)

Lemma or_None_Some (v w : string) :
  or_None v = Some w -> w = v /\ v <> EmptyString.
Proof.
  unfold or_None. destruct (String.eqb_spec v EmptyString) as [E|E]; intros H.
  - discriminate H.
  - injection H as <-. split; [reflexivity | exact E].
Qed.

Lemma or_None_of_nonempty (v : string) : v <> EmptyString -> or_None v = Some v.
Proof.
  unfold or_None.
  destruct (String.eqb_spec v EmptyString); [contradiction | reflexivity].
Qed.

Lemma extract_first_value_nonempty (text label v : string) :
  extract_first_value text label = Some v -> v <> EmptyString.
Proof.
  unfold extract_first_value.
  destruct (search _ _) as [[g|]|]; try discriminate.
  intros H. apply or_None_Some in H. destruct H as [-> H]. exact H.
Qed.

Lemma extract_first_part_nonempty (text v : string) :
  extract_first_part text = Some v -> v <> EmptyString.
Proof.
  unfold extract_first_part.
  destruct (opt_or_None _); try discriminate.
  intros H. apply or_None_Some in H. destruct H as [-> H]. exact H.
Qed.

Lemma opt_or_None_nonempty (x : option string) :
  (forall v, x = Some v -> v <> EmptyString) -> opt_or_None x = x.
Proof.
  destruct x as [v|]; simpl; [|reflexivity].
  intros H. apply or_None_of_nonempty. apply H. reflexivity.
Qed.

Lemma opt_or_None_part (text : string) :
  opt_or_None (extract_first_part text) = extract_first_part text.
Proof.
  apply opt_or_None_nonempty. intros v. apply extract_first_part_nonempty.
Qed.

Lemma opt_or_None_value (text label : string) :
  opt_or_None (extract_first_value text label) = extract_first_value text label.
Proof.
  apply opt_or_None_nonempty. intros v. apply extract_first_value_nonempty.
Qed.

Lemma page_asm_eq (text : string) :
  or_empty (opt_or_None (extract_first_asm text)) = page_asm text.
Proof.
  unfold page_asm, extract_first_asm. rewrite opt_or_None_value. reflexivity.
Qed.

(** ** The three cases of one loop iteration *)

Lemma step_skip (st : loop_state) (idx : nat) (text : string) :
  extract_first_part text = None ->
  run_vars (step st idx text) = run_vars st.
Proof.
  intros H. unfold step. rewrite opt_or_None_part, H. reflexivity.
Qed.

Lemma step_start (st : loop_state) (idx : nat) (text p : string) :
  extract_first_part text = Some p ->
  last_part st = None ->
  run_vars (step st idx text)
  = (Some p, Some (page_asm text), Some idx, Some idx, file_rows st).
Proof.
  intros H L. unfold step. rewrite opt_or_None_part, H, L, page_asm_eq.
  reflexivity.
Qed.

Lemma step_extend (st : loop_state) (idx e : nat) (text p : string) :
  extract_first_part text = Some p ->
  last_part st = Some p ->
  last_asm st = Some (page_asm text) ->
  range_end st = Some e ->
  run_vars (step st idx text)
  = (Some p, Some (page_asm text), range_start st, Some idx, file_rows st).
Proof.
  intros H L A E. unfold step.
  rewrite opt_or_None_part, H, L, page_asm_eq, A, E. simpl.
  rewrite !String.eqb_refl. reflexivity.
Qed.

Lemma step_split (st : loop_state) (idx s e : nat) (text p lp la : string) :
  extract_first_part text = Some p ->
  last_part st = Some lp ->
  last_asm st = Some la ->
  range_start st = Some s ->
  range_end st = Some e ->
  (p, page_asm text) <> (lp, la) ->
  run_vars (step st idx text)
  = (Some p, Some (page_asm text), Some idx, Some idx,
     (file_rows st ++ [mkRange s e lp la])%list).
Proof.
  intros H L A S E D. unfold step, flush_range.
  rewrite opt_or_None_part, H, page_asm_eq, L, A, S, E. simpl.
  destruct (String.eqb_spec p lp) as [->|Hp];
    [destruct (String.eqb_spec (page_asm text) la) as [Ha|Ha];
       [exfalso; apply D; congruence|] |];
    reflexivity.
Qed.

Lemma run_vars_inv (st : loop_state) lp la rs re rows :
  run_vars st = (lp, la, rs, re, rows) ->
  last_part st = lp /\ last_asm st = la /\ range_start st = rs
  /\ range_end st = re /\ file_rows st = rows.
Proof. unfold run_vars. intros H. injection H as <- <- <- <- <-. tauto. Qed.

Lemma flush_range_run_vars (st1 st2 : loop_state) :
  run_vars st1 = run_vars st2 -> flush_range st1 = flush_range st2.
Proof.
  intros H. symmetry in H. apply run_vars_inv in H.
  destruct H as (L & A & S & E & R). unfold flush_range.
  rewrite L, A, S, E, R. reflexivity.
Qed.

Lemma step_run_vars (st1 st2 : loop_state) (idx : nat) (text : string) :
  run_vars st1 = run_vars st2 ->
  run_vars (step st1 idx text) = run_vars (step st2 idx text).
Proof.
  intros H. pose proof (flush_range_run_vars _ _ H) as F.
  symmetry in H. apply run_vars_inv in H.
  destruct H as (L & A & S & E & R). unfold step.
  rewrite L, A, S, E, R, F.
  destruct (opt_or_None (extract_first_part text)); [|reflexivity].
  destruct (last_part st1); [|reflexivity].
  destruct (_ && _); reflexivity.
Qed.

Lemma loop_run_vars (ipages : list (nat * string)) (st1 st2 : loop_state) :
  run_vars st1 = run_vars st2 ->
  run_vars (loop st1 ipages) = run_vars (loop st2 ipages).
Proof.
  revert st1 st2. induction ipages as [|[i t] l IH]; intros st1 st2 H.
  - exact H.
  - simpl. apply IH. apply step_run_vars. exact H.
Qed.

Lemma loop_app (st : loop_state) (l1 l2 : list (nat * string)) :
  loop st (l1 ++ l2)%list = loop (loop st l1) l2.
Proof. unfold loop. apply fold_left_app. Qed.

Lemma loop_skip_pages (rest : list string) (st : loop_state) (i : nat) :
  Forall (fun text => extract_first_part text = None) rest ->
  run_vars (loop st (enumerate i rest)) = run_vars st.
Proof.
  revert st i. induction rest as [|t rest IH]; intros st i H.
  - reflexivity.
  - inversion H as [|t' rest' Ht Hrest]; subst.
    change (run_vars (loop (step st i t) (enumerate (S i) rest))
            = run_vars st).
    rewrite (IH _ _ Hrest). apply step_skip. exact Ht.
Qed.

(** C1 (skip without split).  When pages 1 and 3 yield Part [X] and Asm
    [Y] and page 2 yields no Part (and no further page yields one), the
    document has the single range record 1-3 with part [X] and asm [Y].
    In general a page without a Part leaves every run variable and the
    emitted rows as they were, so the rows of a document are those of the
    same indexed pages without it. *)
Theorem skip_without_split :
  (forall (t1 t2 t3 X Y : string) (rest : list string),
     extract_first_part t1 = Some X -> page_asm t1 = Y ->
     extract_first_part t2 = None ->
     extract_first_part t3 = Some X -> page_asm t3 = Y ->
     Forall (fun text => extract_first_part text = None) rest ->
     records (compress (t1 :: t2 :: t3 :: rest)) = [mkRange 1 3 X Y])
  /\ (forall (st : loop_state) (idx : nat) (text : string),
        extract_first_part text = None ->
        run_vars (step st idx text) = run_vars st)
  /\ (forall (st : loop_state) (before after : list (nat * string))
             (idx : nat) (text : string),
        extract_first_part text = None ->
        flush_range (loop st (before ++ (idx, text) :: after)%list)
        = flush_range (loop st (before ++ after)%list)).
Proof.
  split; [|split].
  - intros t1 t2 t3 X Y rest P1 A1 P2 P3 A3 Hrest.
    unfold compress. cbn [records].
    change (loop init_state (enumerate 1 (t1 :: t2 :: t3 :: rest)))
      with (loop (step (step (step init_state 1 t1) 2 t2) 3 t3)
                 (enumerate 4 rest)).
    rewrite (flush_range_run_vars _ _ (loop_skip_pages rest _ 4 Hrest)).
    set (st1 := step init_state 1 t1).
    set (st2 := step st1 2 t2).
    assert (R1 : run_vars st1 = (Some X, Some Y, Some 1, Some 1, [])).
    { subst st1. rewrite (step_start init_state 1 t1 X P1 eq_refl), A1.
      reflexivity. }
    assert (R2 : run_vars st2 = (Some X, Some Y, Some 1, Some 1, [])).
    { subst st2. rewrite (step_skip _ _ _ P2). exact R1. }
    apply run_vars_inv in R2. destruct R2 as (L & A & S & E & R).
    rewrite <- A3 in A.
    pose proof (step_extend st2 3 1 t3 X P3 L A E) as R3.
    apply run_vars_inv in R3. destruct R3 as (L3 & A3' & S3 & E3 & R3).
    unfold flush_range. rewrite L3, A3', S3, E3, R3, S, R, A3. reflexivity.
  - intros st idx text. apply step_skip.
  - intros st before after idx text P.
    apply flush_range_run_vars. rewrite !loop_app. simpl.
    apply loop_run_vars. apply step_skip. exact P.
Qed.

Lemma skip_without_split_witness :
  records (compress [ "Part: P1" ++ nl ++ "Asm: A1"; "cover sheet";
                      "Asm: A1" ++ nl ++ "Part: P1" ])
  = [mkRange 1 3 "P1" "A1"]
  /\ run_vars (step init_state 2 "cover sheet") = run_vars init_state
  /\ flush_range (loop init_state ([(1, "Part: P1")] ++ (2, "cover sheet")
                                     :: [(3, "Part: P1")])%list)
     = flush_range (loop init_state ([(1, "Part: P1")]
                                       ++ [(3, "Part: P1")])%list).
Proof.
  split; [|split].
  - apply (proj1 skip_without_split _ "cover sheet" _ "P1" "A1" []);
      try (vm_compute; reflexivity).
    constructor.
  - apply (proj1 (proj2 skip_without_split)). vm_compute. reflexivity.
  - apply (proj2 (proj2 skip_without_split)). vm_compute. reflexivity.
Defined.

(** C2 (run split).  When pages 1-3 yield (X,Y), (X,Y), (Z,Y) with [Z]
    distinct from [X] (and no further page yields a Part), the document
    has exactly the records 1-2 for (X,Y) and 3-3 for (Z,Y).  In general,
    when a qualifying page's (part, asm) pair differs from the current
    run's, the current run is appended to the rows as a record and a new
    run starts at that page's index. *)
Theorem run_split :
  (forall (t1 t2 t3 X Y Z : string) (rest : list string),
     extract_first_part t1 = Some X -> page_asm t1 = Y ->
     extract_first_part t2 = Some X -> page_asm t2 = Y ->
     extract_first_part t3 = Some Z -> page_asm t3 = Y ->
     Z <> X ->
     Forall (fun text => extract_first_part text = None) rest ->
     records (compress (t1 :: t2 :: t3 :: rest))
     = [mkRange 1 2 X Y; mkRange 3 3 Z Y])
  /\ (forall (st : loop_state) (idx s e : nat) (text p lp la : string),
        extract_first_part text = Some p ->
        last_part st = Some lp -> last_asm st = Some la ->
        range_start st = Some s -> range_end st = Some e ->
        (p, page_asm text) <> (lp, la) ->
        run_vars (step st idx text)
        = (Some p, Some (page_asm text), Some idx, Some idx,
           (file_rows st ++ [mkRange s e lp la])%list)).
Proof.
  split.
  - intros t1 t2 t3 X Y Z rest P1 A1 P2 A2 P3 A3 D Hrest.
    unfold compress. cbn [records].
    change (loop init_state (enumerate 1 (t1 :: t2 :: t3 :: rest)))
      with (loop (step (step (step init_state 1 t1) 2 t2) 3 t3)
                 (enumerate 4 rest)).
    rewrite (flush_range_run_vars _ _ (loop_skip_pages rest _ 4 Hrest)).
    pose proof (step_start init_state 1 t1 X P1 eq_refl) as R1.
    rewrite A1 in R1. simpl in R1.
    apply run_vars_inv in R1. destruct R1 as (L1 & B1 & S1 & E1 & R1).
    rewrite <- A2 in B1.
    pose proof (step_extend _ 2 1 t2 X P2 L1 B1 E1) as R2.
    apply run_vars_inv in R2. destruct R2 as (L2 & B2 & S2 & E2 & R2).
    rewrite S1 in S2. rewrite R1 in R2.
    pose proof (step_split _ 3 1 2 t3 Z X Y P3 L2) as R3.
    rewrite A2 in B2. specialize (R3 B2 S2 E2).
    rewrite A3 in R3.
    assert (D' : (Z, Y) <> (X, Y)) by (intros C; apply D; congruence).
    specialize (R3 D'). rewrite R2 in R3.
    apply run_vars_inv in R3. destruct R3 as (L3 & B3 & S3 & E3 & R3).
    unfold flush_range. rewrite L3, B3, S3, E3, R3. reflexivity.
  - intros st idx s e text p lp la. apply step_split.
Qed.

Lemma run_split_witness :
  records (compress [ "Part: P1" ++ nl ++ "Asm: A1";
                      "Part: P1" ++ nl ++ "Asm: A1";
                      "Part: P2" ++ nl ++ "Asm: A1" ])
  = [mkRange 1 2 "P1" "A1"; mkRange 3 3 "P2" "A1"]
  /\ run_vars (step (mkState None (Some "P1") (Some "A1") (Some 1) (Some 2) [])
                    3 ("Part: P2" ++ nl ++ "Asm: A1"))
     = (Some "P2", Some (page_asm ("Part: P2" ++ nl ++ "Asm: A1")),
        Some 3, Some 3, ([] ++ [mkRange 1 2 "P1" "A1"])%list).
Proof.
  split.
  - apply (proj1 run_split _ _ _ "P1" "A1" "P2" []);
      try (vm_compute; reflexivity).
    + intros C. discriminate C.
    + constructor.
  - apply (proj2 run_split); try (vm_compute; reflexivity).
    vm_compute. intros C. discriminate C.
Defined.

Lemma step_job (st : loop_state) (idx : nat) (text : string) :
  job_value (step st idx text)
  = match job_value st with
    | Some j => Some j
    | None => extract_first_job text
    end.
Proof.
  unfold step, extract_first_job. rewrite opt_or_None_value.
  destruct (opt_or_None (extract_first_part text)); [|reflexivity].
  destruct (last_part st); [|reflexivity].
  destruct (_ && _); reflexivity.
Qed.

Lemma loop_job_kept (ipages : list (nat * string)) (st : loop_state)
    (j : string) :
  job_value st = Some j -> job_value (loop st ipages) = Some j.
Proof.
  revert st. induction ipages as [|[i t] l IH]; intros st H; simpl.
  - exact H.
  - apply IH. rewrite step_job, H. reflexivity.
Qed.

Lemma loop_job_first (pages : list string) (st : loop_state) (i : nat) :
  job_value st = None ->
  job_value (loop st (enumerate i pages)) = first_job pages.
Proof.
  revert st i. induction pages as [|t l IH]; intros st i H; simpl.
  - exact H.
  - destruct (extract_first_job t) as [j|] eqn:J.
    + apply loop_job_kept. rewrite step_job, H. exact J.
    + apply IH. rewrite step_job, H. exact J.
Qed.

Lemma compress_job (pages : list string) :
  job (compress pages) = first_job pages.
Proof. unfold compress. simpl. apply loop_job_first. reflexivity. Qed.

Lemma first_job_nonempty (pages : list string) (j : string) :
  first_job pages = Some j -> j <> EmptyString.
Proof.
  induction pages as [|t l IH]; simpl; [discriminate|].
  destruct (extract_first_job t) as [v|] eqn:J; [|exact IH].
  intros H. injection H as <-.
  exact (extract_first_value_nonempty _ _ _ J).
Qed.

(** C4 (first Job wins).  The job value of a document is the first Job
    value extracted in ascending page order; once the loop has a job value
    no later page changes it; with no Job on page 1, Job 1001 on page 2 and
    Job 9999 on page 3 the result is 1001. *)
Theorem first_job_wins :
  (forall pages : list string, job (compress pages) = first_job pages)
  /\ (forall (st : loop_state) (ipages : list (nat * string)) (j : string),
        job_value st = Some j -> job_value (loop st ipages) = Some j)
  /\ (forall t1 t2 t3 : string,
        extract_first_job t1 = None ->
        extract_first_job t2 = Some "1001" ->
        extract_first_job t3 = Some "9999" ->
        job (compress [t1; t2; t3]) = Some "1001").
Proof.
  split; [exact compress_job | split].
  - intros st ipages j. apply loop_job_kept.
  - intros t1 t2 t3 J1 J2 J3. rewrite compress_job. simpl.
    rewrite J1, J2. reflexivity.
Qed.

Lemma first_job_wins_witness :
  job_value (loop (mkState (Some "1001") None None None None [])
                  [(3, "Job: 9999")]) = Some "1001"
  /\ job (compress ["Part: P1"; "Job: 1001"; "Job: 9999"]) = Some "1001".
Proof.
  split.
  - apply (proj1 (proj2 first_job_wins)). reflexivity.
  - apply (proj2 (proj2 first_job_wins)); vm_compute; reflexivity.
Defined.

(** ** The invariant of the loop *)

Section Invariant.

Variable done : list string.

Lemma page_at_old (more : list string) (i : nat) :
  i <= List.length done -> page_at (done ++ more)%list i = page_at done i.
Proof.
  destruct i as [|k]; simpl; [reflexivity|].
  intros H. apply nth_error_app1. lia.
Qed.

Lemma page_at_new (text : string) :
  page_at (done ++ [text])%list (S (List.length done)) = Some text.
Proof.
  simpl. rewrite nth_error_app2 by lia. rewrite Nat.sub_diag. reflexivity.
Qed.

Lemma pages_agree_old (more : list string) (lo hi : nat) (p a : string) :
  hi <= List.length done ->
  pages_agree done lo hi p a -> pages_agree (done ++ more)%list lo hi p a.
Proof.
  intros Hhi H i text q Hi Hat. rewrite page_at_old in Hat by lia.
  exact (H i text q Hi Hat).
Qed.

Lemma good_range_old (more : list string) (r : RangeRecord) :
  good_range done r -> good_range (done ++ more)%list r.
Proof.
  intros (H1 & H2 & H3 & H4).
  refine (conj H1 (conj H2 (conj _ _))).
  - rewrite length_app. lia.
  - apply pages_agree_old; assumption.
Qed.

(** Adding one page to a range that agreed so far. *)
Lemma pages_agree_snoc (text : string) (lo : nat) (p a : string) :
  pages_agree done lo (List.length done) p a ->
  (forall q, extract_first_part text = Some q -> q = p /\ page_asm text = a) ->
  pages_agree (done ++ [text])%list lo (S (List.length done)) p a.
Proof.
  intros H Hnew i t q Hi Hat Hq.
  destruct (Nat.eq_dec i (S (List.length done))) as [->|Hne].
  - rewrite page_at_new in Hat. injection Hat as <-. exact (Hnew q Hq).
  - rewrite page_at_old in Hat by lia.
    apply (H i t q); [lia | exact Hat | exact Hq].
Qed.

Lemma pages_agree_single (text p : string) :
  extract_first_part text = Some p ->
  pages_agree (done ++ [text])%list (S (List.length done))
              (S (List.length done)) p (page_asm text).
Proof.
  intros Hp i t q Hi Hat Hq.
  assert (i = S (List.length done)) as -> by lia.
  rewrite page_at_new in Hat. injection Hat as <-.
  rewrite Hp in Hq. injection Hq as <-. split; reflexivity.
Qed.

Lemma step_inv (st : loop_state) (text : string) :
  loop_inv done st ->
  loop_inv (done ++ [text])%list (step st (S (List.length done)) text).
Proof.
  intros [Hrows Hrun].
  assert (Hrows' : Forall (good_range (done ++ [text])%list) (file_rows st)).
  { eapply Forall_impl; [|exact Hrows]. intros r. apply good_range_old. }
  assert (Hlen : List.length (done ++ [text])%list = S (List.length done)).
  { rewrite length_app. simpl. lia. }
  unfold step. rewrite opt_or_None_part, page_asm_eq.
  destruct (extract_first_part text) as [p|] eqn:Hp.
  - (* a qualifying page *)
    assert (Hfresh : run_inv (done ++ [text])%list
              (mkState (job_value (step st 0 text)) (Some p)
                 (Some (page_asm text)) (Some (S (List.length done)))
                 (Some (S (List.length done))) [])).
    { unfold run_inv. simpl. exists (page_asm text), (S (List.length done)),
        (S (List.length done)). rewrite Hlen.
      do 6 (split; [reflexivity || lia|]).
      apply pages_agree_single. exact Hp. }
    unfold run_inv in Hrun.
    destruct (last_part st) as [lp|] eqn:L.
    + destruct Hrun as (a & s & e & A & Rs & Re & H1 & H2 & H3 & Hag).
      rewrite A, Re. simpl.
      destruct (String.eqb_spec p lp) as [->|Dp]; simpl.
      * destruct (String.eqb_spec (page_asm text) a) as [Ha|Da]; simpl.
        -- (* the run is extended *)
           split; [exact Hrows'|]. unfold run_inv. simpl.
           exists a, s, (S (List.length done)). rewrite Hlen, Rs.
           do 6 (split; [reflexivity || lia|]).
           apply pages_agree_snoc; [exact Hag|].
           intros q Hq. rewrite Hp in Hq. injection Hq as <-.
           split; [reflexivity | exact Ha].
        -- (* the asm changed *)
           split; [|exact Hfresh]. simpl. unfold flush_range.
           rewrite L, A, Rs, Re. apply Forall_app. split; [exact Hrows'|].
           constructor; [|constructor]. apply good_range_old.
           do 3 (split; [simpl; lia|]). simpl.
           intros i t q Hi. apply Hag. lia.
      * (* the part changed *)
        split; [|exact Hfresh]. simpl. unfold flush_range.
        rewrite L, A, Rs, Re. apply Forall_app. split; [exact Hrows'|].
        constructor; [|constructor]. apply good_range_old.
        do 3 (split; [simpl; lia|]). simpl.
        intros i t q Hi. apply Hag. lia.
    + (* the first run starts *)
      split; [exact Hrows' | exact Hfresh].
  - (* a page without a Part *)
    split; [exact Hrows'|]. unfold run_inv in *. simpl.
    destruct (last_part st) as [lp|]; [|exact I].
    destruct Hrun as (a & s & e & A & Rs & Re & H1 & H2 & H3 & Hag).
    exists a, s, e. rewrite Hlen.
    do 6 (split; [assumption || lia|]).
    apply pages_agree_snoc; [exact Hag|].
    intros q Hq. rewrite Hp in Hq. discriminate Hq.
Qed.

End Invariant.

Lemma loop_inv_all (rest done : list string) (st : loop_state) :
  loop_inv done st ->
  loop_inv (done ++ rest)%list
           (loop st (enumerate (S (List.length done)) rest)).
Proof.
  revert done st. induction rest as [|text rest IH]; intros done st H.
  - rewrite app_nil_r. exact H.
  - simpl. apply (step_inv done st text) in H.
    apply IH in H. rewrite <- app_assoc in H. simpl in H.
    rewrite length_app in H. simpl in H.
    rewrite Nat.add_1_r in H. exact H.
Qed.

Lemma flush_range_inv (pages : list string) (st : loop_state) :
  loop_inv pages st -> Forall (good_range pages) (flush_range st).
Proof.
  intros [Hrows Hrun]. unfold flush_range, run_inv in *.
  destruct (last_part st) as [p|]; [|exact Hrows].
  destruct Hrun as (a & s & e & A & Rs & Re & H1 & H2 & H3 & Hag).
  rewrite A, Rs, Re. apply Forall_app. split; [exact Hrows|].
  constructor; [|constructor]. do 3 (split; [simpl; lia|]). simpl.
  intros i t q Hi. apply Hag. lia.
Qed.

(** C3 (record invariant).  Every record of every document has
    [start_page <= end_page] (and lies within the document's pages), and
    every page with index in [start_page, end_page] from which a Part can
    be extracted yields exactly the record's part and, with an absent Asm
    read as the empty string, the record's asm. *)
Theorem records_invariant (pages : list string) (r : RangeRecord) :
  In r (records (compress pages)) ->
  start_page r <= end_page r
  /\ 1 <= start_page r /\ end_page r <= List.length pages
  /\ forall (i : nat) (text p : string),
       start_page r <= i <= end_page r ->
       page_at pages i = Some text ->
       extract_first_part text = Some p ->
       p = part r /\ page_asm text = asm r.
Proof.
  intros Hin. unfold compress in Hin. simpl in Hin.
  assert (H0 : loop_inv [] init_state).
  { split; [constructor | exact I]. }
  apply (loop_inv_all pages) in H0. simpl in H0.
  apply flush_range_inv in H0.
  rewrite Forall_forall in H0. destruct (H0 r Hin) as (H1 & H2 & H3 & H4).
  refine (conj H2 (conj H1 (conj H3 _))).
  intros i text p Hi Hat Hp. exact (H4 i text p Hi Hat Hp).
Qed.

Lemma records_invariant_witness :
  let pages := [ "Part: P1" ++ nl ++ "Asm: A1"; "cover sheet";
                 "Part: P1" ++ nl ++ "Asm: A1"; "Part: P2" ] in
  let r := mkRange 1 3 "P1" "A1" in
  start_page r <= end_page r
  /\ 1 <= start_page r /\ end_page r <= List.length pages
  /\ forall (i : nat) (text p : string),
       start_page r <= i <= end_page r ->
       page_at pages i = Some text ->
       extract_first_part text = Some p ->
       p = part r /\ page_asm text = asm r.
Proof.
  intros pages r. apply (records_invariant pages r).
  vm_compute. left. reflexivity.
Defined.

(** ** The rows one document contributes to the report *)

Lemma format_row_not_header (r : RangeRecord) :
  is_job_header (format_row r) = false.
Proof.
  unfold format_row, page_label. destruct (start_page r =? end_page r);
    reflexivity.
Qed.

Lemma no_header_in_rows (rs : list RangeRecord) :
  filter is_job_header (map format_row rs ++ [EmptyString])%list = [].
Proof.
  induction rs as [|r rs IH]; simpl; [reflexivity|].
  rewrite format_row_not_header. exact IH.
Qed.

(** C5, as the code has it.  A document with at least one range record
    contributes, when its job value is present, the header line for that
    job, then its File line, its range records in order and a blank row,
    and the header is the only row that starts with the Job label; when the
    job value is absent no row starts with the Job label.  A document
    without range records contributes no row at all, whatever its job. *)
Theorem job_header (name : string) (pages : list string) :
  let rep := compress pages in
  let rows := document_rows name pages in
  (forall j : string,
     records rep <> [] -> job rep = Some j ->
     rows = (job_line j :: file_line name
             :: map format_row (records rep) ++ [EmptyString])%list
     /\ filter is_job_header rows = [job_line j])
  /\ (job rep = None -> filter is_job_header rows = [])
  /\ (records rep = [] -> rows = []).
Proof.
  intros rep rows. subst rows. unfold document_rows. fold rep.
  split; [|split].
  - intros j Hne Hj. rewrite Hj.
    assert (Hj' : or_None j = Some j).
    { apply or_None_of_nonempty. apply (first_job_nonempty pages).
      rewrite <- compress_job. exact Hj. }
    destruct (records rep) as [|r rs]; [contradiction|].
    simpl opt_or_None. rewrite Hj'. split; [reflexivity|].
    change (filter is_job_header
              (([job_line j] ++ [file_line name])
                 ++ (map format_row (r :: rs) ++ [EmptyString]))%list
            = [job_line j]).
    rewrite filter_app, no_header_in_rows, app_nil_r. reflexivity.
  - intros Hj. rewrite Hj. destruct (records rep) as [|r rs]; [reflexivity|].
    change (filter is_job_header
              ([file_line name] ++ (map format_row (r :: rs) ++ [EmptyString]))%list
            = []).
    rewrite filter_app, no_header_in_rows, app_nil_r. reflexivity.
  - intros Hr. rewrite Hr. reflexivity.
Qed.

Lemma job_header_witness :
  (document_rows "t.pdf" ["Job: 500" ++ nl ++ "Part: P1"]
   = [job_line "500"; file_line "t.pdf";
      format_row (mkRange 1 1 "P1" EmptyString); EmptyString]
   /\ filter is_job_header
        (document_rows "t.pdf" ["Job: 500" ++ nl ++ "Part: P1"])
      = [job_line "500"])
  /\ filter is_job_header (document_rows "t.pdf" ["Part: P1"]) = []
  /\ document_rows "t.pdf" ["Job: 500"] = [].
Proof.
  split; [|split].
  - apply (proj1 (job_header "t.pdf" ["Job: 500" ++ nl ++ "Part: P1"])).
    + vm_compute. intros C. discriminate C.
    + vm_compute. reflexivity.
  - apply (proj1 (proj2 (job_header "t.pdf" ["Part: P1"]))).
    vm_compute. reflexivity.
  - apply (proj2 (proj2 (job_header "t.pdf" ["Job: 500"]))).
    vm_compute. reflexivity.
Defined.

(** C5 as stated fails: this one-page document has the job value 500 and
    no range record, and contributes no header line. *)
Lemma job_header_counterexample :
  job (compress ["Job: 500"]) = Some "500"
  /\ records (compress ["Job: 500"]) = []
  /\ ~ In (job_line "500") (document_rows "t.pdf" ["Job: 500"]).
Proof.
  split; [|split]; vm_compute; try reflexivity. intros C. exact C.
Qed.

(** ** Where the pattern can match *)



Lemma run_escape_prefix {A : Type} (label : string) (st : mstate)
    (k : mstate -> option A) (x : A) :
  run (escape label) st k = Some x -> ci_prefix label (m_rest st) = true.
Proof.
  revert st. induction label as [|l label IH]; intros st H.
  - reflexivity.
  - cbn [run escape] in H. destruct (m_rest st) as [|c s']; [discriminate|].
    change (cs_mem (LITERAL l) c && ci_prefix label s' = true).
    destruct (cs_mem (LITERAL l) c); [|discriminate].
    apply IH in H. exact H.
Qed.

Lemma match_here_label (label : string) (prev : option ascii) (s : string)
    (g : option string) :
  match_here (label_pattern label) prev s = Some g ->
  at_boundary prev s = true /\ ci_prefix label s = true.
Proof.
  unfold match_here, label_pattern. simpl run.
  destruct (at_boundary prev s); [|discriminate].
  intros H. apply run_escape_prefix in H. split; [reflexivity | exact H].
Qed.



Lemma extract_of_search_None (text label : string) :
  search (label_pattern label) text = None ->
  extract_first_value text label = None.
Proof. unfold extract_first_value. intros ->. reflexivity. Qed.




(** ** The first match and its value *)

Lemma search_from_leftmost (r : regex) (i : nat) (prev : option ascii)
    (s : string) (g : option string) :
  match_at_from r prev s i = Some g ->
  (forall k, k < i -> match_at_from r prev s k = None) ->
  search_from r prev s = Some g.
Proof.
  revert prev s. induction i as [|i IH]; intros prev s M Hleft.
  - simpl in M. destruct s; simpl; rewrite M; reflexivity.
  - pose proof (Hleft 0 (Nat.lt_0_succ i)) as H0. simpl in H0.
    destruct s as [|c s]; [discriminate M|].
    simpl. rewrite H0. apply IH; [exact M|].
    intros k Hk. apply (Hleft (S k)). lia.
Qed.

Lemma occurs_at_false (text label : string) (k : nat) :
  occurs_at text label k = false ->
  match_at_from (label_pattern label) None text k = None.
Proof.
  unfold occurs_at. destruct (match_at_from _ _ _ _); [discriminate|reflexivity].
Qed.

Lemma leftmost_value (text label : string) (i : nat) :
  occurs_at text label i = true ->
  (forall k, k < i -> occurs_at text label k = false) ->
  extract_first_value text label = value_at text label i.
Proof.
  intros O Hleft. unfold occurs_at in O. unfold value_at.
  destruct (match_at_from (label_pattern label) None text i) as [g|] eqn:M;
    [|discriminate O].
  unfold extract_first_value, search.
  rewrite (search_from_leftmost _ i None text g M); [reflexivity|].
  intros k Hk. apply occurs_at_false. apply Hleft. exact Hk.
Qed.

(** C6 (empty is absent).  When the pattern matches and what it captured
    is empty once stripped, the result is absent, as it is when the pattern
    does not match; the text "Part:" followed by three spaces and a newline
    is such a match (the capture is one space) and yields absent. *)
Theorem empty_is_absent :
  (forall text label g : string,
     search (label_pattern label) text = Some (Some g) ->
     strip g = EmptyString ->
     extract_first_value text label = None)
  /\ (forall text label : string,
        search (label_pattern label) text = None ->
        extract_first_value text label = None)
  /\ search (label_pattern "Part") ("Part:   " ++ nl) = Some (Some " ")
  /\ extract_first_value ("Part:   " ++ nl) "Part" = None.
Proof.
  split; [|split; [|split]].
  - intros text label g S E. unfold extract_first_value. rewrite S, E.
    reflexivity.
  - intros text label. apply extract_of_search_None.
  - vm_compute. reflexivity.
  - vm_compute. reflexivity.
Qed.

Lemma empty_is_absent_witness :
  extract_first_value ("Part:   " ++ nl) "Part" = None
  /\ extract_first_value "no label here" "Part" = None.
Proof.
  split.
  - apply (proj1 empty_is_absent _ _ " "); vm_compute; reflexivity.
  - apply (proj1 (proj2 empty_is_absent)). vm_compute. reflexivity.
Defined.

(** ** Part truncation *)

(** C7, as the code has it.  [extract_first_part] is the extracted Part
    value truncated at its first slash and stripped, except that an empty
    remainder is returned as absent; "Part: A123/B456" gives A123. *)
Theorem part_truncation :
  (forall text : string,
     extract_first_part text = opt_or_None (extract_part_spec text))
  /\ extract_first_part "Part: A123/B456" = Some "A123".
Proof.
  split.
  - intros text. unfold extract_first_part, extract_part_spec.
    rewrite opt_or_None_value.
    destruct (extract_first_value text "Part"); reflexivity.
  - vm_compute. reflexivity.
Qed.

(** C7 as stated fails when nothing precedes the slash: the truncated
    value is the empty string, and the code returns absent. *)
Lemma part_truncation_counterexample :
  extract_first_value "Part: /B456" "Part" = Some "/B456"
  /\ extract_part_spec "Part: /B456" = Some EmptyString
  /\ extract_first_part "Part: /B456" = None
  /\ extract_first_part "Part: /B456" <> extract_part_spec "Part: /B456".
Proof.
  split; [|split; [|split]]; vm_compute; try reflexivity.
  intros C. discriminate C.
Qed.

(** C10 (whitespace spans lines).  The whitespace class of the pattern
    contains the line terminators, so a value on the line after the label
    is extracted: "Part:" then a newline then "A1" yields A1, and so does a
    line break between the label and the colon. *)
Theorem whitespace_spans_lines :
  cs_mem CATEGORY_SPACE LF = true /\ cs_mem CATEGORY_SPACE CR = true
  /\ extract_first_value ("Part:" ++ nl ++ "A1") "Part" = Some "A1"
  /\ extract_first_value ("Part" ++ nl ++ ":" ++ String CR nl ++ "A1") "Part"
     = Some "A1".
Proof. repeat split; vm_compute; reflexivity. Qed.

(** * Further properties of the code *)

Lemma str_app_assoc (a b c : string) : (a ++ b) ++ c = a ++ (b ++ c).
Proof.
  induction a as [|x a IH]; simpl; [reflexivity | rewrite IH; reflexivity].
Qed.

Lemma str_app_nil_r (a : string) : a ++ EmptyString = a.
Proof.
  induction a as [|x a IH]; simpl; [reflexivity | rewrite IH; reflexivity].
Qed.

Lemma str_length_app (a b : string) : length (a ++ b) = length a + length b.
Proof.
  induction a as [|x a IH]; simpl; [reflexivity | rewrite IH; reflexivity].
Qed.

Lemma substring_taken (a b : string) :
  substring 0 (length (a ++ b) - length b) (a ++ b) = a.
Proof.
  rewrite str_length_app, Nat.add_sub.
  induction a as [|x a IH]; simpl.
  - destruct b; reflexivity.
  - rewrite IH. reflexivity.
Qed.

Lemma string_forall_app (p : ascii -> bool) (a b : string) :
  string_forall p (a ++ b) = string_forall p a && string_forall p b.
Proof.
  induction a as [|x a IH]; simpl; [reflexivity|].
  rewrite IH. apply andb_assoc.
Qed.

(** What a successful greedy repetition took. *)
Lemma max_repeat_taken {A : Type} (cs : charset) (s : string) (n : nat)
    (prev : option ascii) (k : option ascii -> string -> option A) (x : A) :
  max_repeat cs n prev s k = Some x ->
  exists taken rest : string,
    s = taken ++ rest /\ string_forall (cs_mem cs) taken = true
    /\ n <= length taken /\ k (last_char prev taken) rest = Some x.
Proof.
  revert n prev. induction s as [|c s IH]; intros n prev H.
  - simpl in H. destruct (Nat.eqb_spec n 0) as [->|]; [|discriminate].
    exists EmptyString, EmptyString. repeat split; try reflexivity. exact H.
  - cbn [max_repeat] in H.
    assert (Stop : (if n =? 0 then k prev (String c s) else None) = Some x ->
                   exists taken rest : string,
                     String c s = taken ++ rest
                     /\ string_forall (cs_mem cs) taken = true
                     /\ n <= length taken
                     /\ k (last_char prev taken) rest = Some x).
    { intros H0. destruct (Nat.eqb_spec n 0) as [->|]; [|discriminate].
      exists EmptyString, (String c s). repeat split; try reflexivity.
      exact H0. }
    destruct (cs_mem cs c) eqn:M; [|exact (Stop H)].
    destruct (max_repeat cs (pred n) (Some c) s k) as [y|] eqn:R;
      [|exact (Stop H)].
    injection H as ->.
    destruct (IH _ _ R) as (taken & rest & -> & F & L & K).
    exists (String c taken), rest. simpl. rewrite M, F.
    repeat split; try reflexivity; [lia | exact K].
Qed.

Lemma run_escape_taken {A : Type} (label : string) (st : mstate)
    (k : mstate -> option A) (x : A) :
  run (escape label) st k = Some x ->
  exists l rest : string,
    m_rest st = l ++ rest /\ ci_equal label l = true
    /\ k (MState (last_char (m_prev st) l) rest (m_group st)) = Some x.
Proof.
  revert st. induction label as [|a label IH]; intros st H.
  - exists EmptyString, (m_rest st). simpl in *. destruct st. auto.
  - cbn [run escape] in H.
    destruct (m_rest st) as [|c s'] eqn:E; [discriminate|].
    destruct (cs_mem (LITERAL a) c) eqn:M; [|discriminate].
    apply IH in H. cbn [m_rest m_prev m_group] in H.
    destruct H as (l & rest & -> & C & K).
    exists (String c l), rest. cbn [ci_equal]. rewrite M, C. auto.
Qed.

Lemma literal_colon (c : ascii) : cs_mem (LITERAL ":") c = true -> c = ":"%char.
Proof.
  destruct c as [[] [] [] [] [] [] [] []]; simpl; intros H;
    try discriminate H; reflexivity.
Qed.

(** The shape of the text wherever the label pattern matches. *)
Lemma match_here_shape (label : string) (prev : option ascii) (s : string)
    (g : option string) :
  match_here (label_pattern label) prev s = Some g ->
  exists l w1 w2 cap rest : string,
    s = l ++ w1 ++ String ":" (w2 ++ cap ++ rest)
    /\ ci_equal label l = true
    /\ string_forall is_space w1 = true
    /\ string_forall is_space w2 = true
    /\ string_forall (cs_mem (NOT_IN [CR; LF])) cap = true
    /\ cap <> EmptyString
    /\ g = Some cap.
Proof.
  unfold match_here, label_pattern. cbn [run].
  destruct (at_boundary _ _); [|discriminate]. cbn [m_rest m_prev m_group].
  intros H. apply run_escape_taken in H.
  cbn [m_rest m_prev m_group] in H. destruct H as (l & r1 & -> & C & H).
  apply max_repeat_taken in H. destruct H as (w1 & r2 & -> & W1 & _ & H).
  cbn [m_rest m_prev m_group] in H.
  destruct r2 as [|c r3]; [discriminate|].
  destruct (cs_mem (LITERAL ":") c) eqn:M; [|discriminate].
  apply literal_colon in M. subst c.
  apply max_repeat_taken in H. destruct H as (w2 & r4 & -> & W2 & _ & H).
  apply max_repeat_taken in H. destruct H as (cap & rest & -> & N & L & H).
  cbn [m_rest m_prev m_group] in H. rewrite substring_taken in H.
  injection H as <-.
  exists l, w1, w2, cap, rest. repeat split; try assumption; try reflexivity.
  intros ->. simpl in L. lia.
Qed.

Lemma search_from_found (r : regex) (s : string) (prev : option ascii)
    (g : option string) :
  search_from r prev s = Some g ->
  exists pre suf : string,
    s = pre ++ suf /\ match_here r (last_char prev pre) suf = Some g.
Proof.
  revert prev. induction s as [|c s IH]; intros prev H; cbn [search_from] in H.
  - destruct (match_here r prev EmptyString) as [g'|] eqn:M; [|discriminate].
    injection H as ->. exists EmptyString, EmptyString. auto.
  - destruct (match_here r prev (String c s)) as [g'|] eqn:M.
    + injection H as ->. exists EmptyString, (String c s). auto.
    + destruct (IH _ H) as (pre & suf & -> & M').
      exists (String c pre), suf. auto.
Qed.

(** *** Stripping *)

Lemma lstrip_no_lead (s : string) : no_lead (lstrip s).
Proof.
  induction s as [|c s IH]; simpl; [exact I|].
  destruct (is_space c) eqn:E; [exact IH | exact E].
Qed.

Lemma lstrip_fix (t : string) : no_lead t -> lstrip t = t.
Proof. destruct t as [|c t]; simpl; [reflexivity | intros ->; reflexivity]. Qed.

Lemma rstrip_no_lead (t : string) : no_lead t -> no_lead (rstrip t).
Proof.
  destruct t as [|c t]; simpl; [auto|]. intros E.
  destruct (rstrip t); rewrite ?E; exact E.
Qed.

Lemma rstrip_idem (s : string) : rstrip (rstrip s) = rstrip s.
Proof.
  induction s as [|c s IH]; simpl; [reflexivity|].
  destruct (rstrip s) as [|d r] eqn:R.
  - destruct (is_space c) eqn:E; simpl; [reflexivity | rewrite E; reflexivity].
  - cbn [rstrip]. cbn [rstrip] in IH. rewrite IH. reflexivity.
Qed.

Lemma strip_idem (s : string) : strip (strip s) = strip s.
Proof.
  unfold strip. rewrite (lstrip_fix (rstrip (lstrip s))).
  - apply rstrip_idem.
  - apply rstrip_no_lead, lstrip_no_lead.
Qed.

Lemma lstrip_split (s : string) :
  exists pre : string, s = pre ++ lstrip s /\ string_forall is_space pre = true.
Proof.
  induction s as [|c s (pre & E & F)]; simpl.
  - exists EmptyString. auto.
  - destruct (is_space c) eqn:S.
    + exists (String c pre). simpl. rewrite S, F, <- E. auto.
    + exists EmptyString. auto.
Qed.

Lemma rstrip_split (s : string) :
  exists post : string,
    s = rstrip s ++ post /\ string_forall is_space post = true.
Proof.
  induction s as [|c s (post & E & F)]; simpl.
  - exists EmptyString. auto.
  - destruct (rstrip s) as [|d r] eqn:R.
    + simpl in E. subst post. destruct (is_space c) eqn:S.
      * exists (String c s). simpl. rewrite S, F. auto.
      * exists s. auto.
    + exists post. simpl in *. rewrite <- E. auto.
Qed.

Lemma strip_piece (s : string) : piece_of (strip s) s.
Proof.
  unfold strip. destruct (lstrip_split s) as (pre & E & _).
  destruct (rstrip_split (lstrip s)) as (post & E' & _).
  exists pre, post. rewrite <- E'. exact E.
Qed.

Lemma piece_of_trans (a b c : string) :
  piece_of a b -> piece_of b c -> piece_of a c.
Proof.
  intros (p1 & q1 & ->) (p2 & q2 & ->).
  exists (p2 ++ p1), (q1 ++ q2). rewrite !str_app_assoc. reflexivity.
Qed.

Lemma string_forall_piece (p : ascii -> bool) (a b : string) :
  piece_of a b -> string_forall p b = true -> string_forall p a = true.
Proof.
  intros (pre & post & ->). rewrite !string_forall_app.
  intros H. apply andb_prop in H. destruct H as [_ H].
  apply andb_prop in H. tauto.
Qed.

(** A successful search, as the extractor sees it. *)
Lemma search_shape (label text : string) (g : option string) :
  search (label_pattern label) text = Some g ->
  exists pre l w1 w2 cap rest : string,
    text = pre ++ l ++ w1 ++ String ":" (w2 ++ cap ++ rest)
    /\ ci_equal label l = true
    /\ string_forall is_space w1 = true
    /\ string_forall is_space w2 = true
    /\ string_forall (cs_mem (NOT_IN [CR; LF])) cap = true
    /\ cap <> EmptyString
    /\ g = Some cap.
Proof.
  unfold search. intros H. apply search_from_found in H.
  destruct H as (pre & suf & -> & H). apply match_here_shape in H.
  destruct H as (l & w1 & w2 & cap & rest & -> & H).
  exists pre, l, w1, w2, cap, rest. split; [reflexivity | exact H].
Qed.

Lemma value_stripped (text label v : string) :
  extract_first_value text label = Some v ->
  v <> EmptyString /\ strip v = v.
Proof.
  unfold extract_first_value.
  destruct (search (label_pattern label) text) as [[g|]|]; try discriminate.
  intros H. apply or_None_Some in H. destruct H as [-> Hne].
  split; [exact Hne | apply strip_idem].
Qed.

Lemma value_in_line (text label v : string) :
  extract_first_value text label = Some v ->
  string_forall (cs_mem (NOT_IN [CR; LF])) v = true /\ piece_of v text.
Proof.
  unfold extract_first_value.
  destruct (search (label_pattern label) text) as [[g|]|] eqn:S;
    try discriminate.
  intros H. apply or_None_Some in H. destruct H as [-> _].
  apply search_shape in S.
  destruct S as (pre & l & w1 & w2 & cap & rest & -> & _ & _ & _ & N & _ & E).
  injection E as <-. split.
  - apply (string_forall_piece _ _ g (strip_piece g) N).
  - apply (piece_of_trans _ g); [apply strip_piece|].
    exists (pre ++ l ++ w1 ++ String ":" w2), rest.
    rewrite !str_app_assoc. simpl. rewrite ?str_app_assoc. reflexivity.
Qed.

(** X1.  A value returned by [extract_first_value] is never empty, has no
    leading or trailing whitespace, contains no carriage return or line
    feed, and is a contiguous piece of the text. *)
Theorem value_is_clean (text label v : string) :
  extract_first_value text label = Some v ->
  v <> EmptyString /\ strip v = v
  /\ string_forall (cs_mem (NOT_IN [CR; LF])) v = true
  /\ piece_of v text.
Proof.
  intros H. destruct (value_stripped _ _ _ H) as [Ne St].
  destruct (value_in_line _ _ _ H) as [Nl Pc].
  split; [exact Ne|]. split; [exact St|]. split; [exact Nl | exact Pc].
Qed.

Lemma value_is_clean_witness :
  "500" <> EmptyString /\ strip "500" = "500"
  /\ string_forall (cs_mem (NOT_IN [CR; LF])) "500" = true
  /\ piece_of "500" ("Job:  500 " ++ nl ++ "Part: P1").
Proof. apply (value_is_clean _ "Job"). vm_compute. reflexivity. Defined.

(** X2.  A text without a colon yields no value, whatever the label. *)
Theorem no_colon_no_value (text label : string) :
  string_forall (fun c => negb (Ascii.eqb c ":")) text = true ->
  extract_first_value text label = None.
Proof.
  intros H. apply extract_of_search_None.
  destruct (search (label_pattern label) text) as [g|] eqn:S; [|reflexivity].
  apply search_shape in S.
  destruct S as (pre & l & w1 & w2 & cap & rest & -> & _).
  rewrite !string_forall_app in H. simpl in H.
  rewrite !andb_false_r in H. discriminate H.
Qed.

Lemma no_colon_no_value_witness :
  extract_first_value "Part P1" "Part" = None.
Proof. apply no_colon_no_value. vm_compute. reflexivity. Defined.

(** *** The Part value *)

Lemma contains_slash_forall (s : string) :
  contains_slash s = negb (string_forall (fun c => negb (Ascii.eqb c "/")) s).
Proof.
  induction s as [|c s IH]; simpl; [reflexivity|].
  rewrite IH. destruct (Ascii.eqb c "/"); reflexivity.
Qed.

Lemma before_slash_no_slash (s : string) :
  string_forall (fun c => negb (Ascii.eqb c "/")) (before_slash s) = true.
Proof.
  induction s as [|c s IH]; simpl; [reflexivity|].
  destruct (Ascii.eqb c "/") eqn:E; simpl; [reflexivity|].
  rewrite E, IH. reflexivity.
Qed.

Lemma before_slash_piece (s : string) : piece_of (before_slash s) s.
Proof.
  exists EmptyString. simpl. induction s as [|c s (post & E)]; simpl.
  - exists EmptyString. reflexivity.
  - destruct (Ascii.eqb c "/").
    + exists (String c s). reflexivity.
    + exists post. simpl. rewrite <- E. reflexivity.
Qed.

Lemma part_stripped (text v : string) :
  extract_first_part text = Some v -> v <> EmptyString /\ strip v = v.
Proof.
  unfold extract_first_part. rewrite opt_or_None_value.
  destruct (extract_first_value text "Part") as [w|] eqn:E; [|discriminate].
  destruct (value_stripped _ _ _ E) as (_ & Ws).
  destruct (contains_slash w); intros H; apply or_None_Some in H;
    destruct H as [-> Hne]; (split; [exact Hne|]);
    [apply strip_idem | exact Ws].
Qed.

(** X3.  A part returned by [extract_first_part] is never empty, has no
    leading or trailing whitespace, contains no slash and no carriage
    return or line feed, and is a contiguous piece of the text. *)
Theorem part_is_clean (text v : string) :
  extract_first_part text = Some v ->
  v <> EmptyString /\ strip v = v /\ contains_slash v = false
  /\ string_forall (cs_mem (NOT_IN [CR; LF])) v = true
  /\ piece_of v text.
Proof.
  intros H. destruct (part_stripped _ _ H) as [Ne St].
  split; [exact Ne|]. split; [exact St|]. revert H.
  unfold extract_first_part. rewrite opt_or_None_value.
  destruct (extract_first_value text "Part") as [w|] eqn:E; [|discriminate].
  destruct (value_in_line _ _ _ E) as (Wn & Wp).
  destruct (contains_slash w) eqn:C; intros H; apply or_None_Some in H;
    destruct H as [-> _].
  - assert (P : piece_of (strip (before_slash w)) w).
    { apply (piece_of_trans _ (before_slash w));
        [apply strip_piece | apply before_slash_piece]. }
    split; [|split].
    + rewrite contains_slash_forall.
      rewrite (string_forall_piece _ _ _ (strip_piece _)
                 (before_slash_no_slash w)). reflexivity.
    + exact (string_forall_piece _ _ _ P Wn).
    + exact (piece_of_trans _ _ _ P Wp).
  - auto.
Qed.

Lemma part_is_clean_witness :
  "A1" <> EmptyString /\ strip "A1" = "A1" /\ contains_slash "A1" = false
  /\ string_forall (cs_mem (NOT_IN [CR; LF])) "A1" = true
  /\ piece_of "A1" "Part:  A1 / B2".
Proof. apply part_is_clean. vm_compute. reflexivity. Defined.

(** *** The label's case *)





(** *** A labelled line is found *)

Lemma max_repeat_greedy {A : Type} (cs : charset) (taken rest : string)
    (n : nat) (prev : option ascii)
    (k : option ascii -> string -> option A) (x : A) :
  string_forall (cs_mem cs) taken = true ->
  stops cs rest = true ->
  n <= length taken ->
  k (last_char prev taken) rest = Some x ->
  max_repeat cs n prev (taken ++ rest) k = Some x.
Proof.
  revert n prev. induction taken as [|c t IH]; intros n prev F S L K.
  - simpl in L. assert (n = 0) as -> by lia. simpl in K. simpl append.
    destruct rest as [|c r]; cbn [max_repeat]; [exact K|].
    simpl in S. destruct (cs_mem cs c); [discriminate S | exact K].
  - simpl in F. apply andb_prop in F. destruct F as [Fc Ft].
    simpl append. cbn [max_repeat]. rewrite Fc.
    rewrite (IH (pred n) (Some c) Ft S); [reflexivity | simpl in L; lia|].
    exact K.
Qed.

Lemma run_escape_match {A : Type} (label l rest : string)
    (prev : option ascii) (g : option string) (k : mstate -> option A) :
  ci_equal label l = true ->
  run (escape label) (MState prev (l ++ rest) g) k
  = k (MState (last_char prev l) rest g).
Proof.
  revert l prev. induction label as [|a label IH]; intros [|c l] prev H;
    try discriminate H; [reflexivity|].
  cbn [ci_equal] in H. apply andb_prop in H. destruct H as [Hc Hl].
  cbn [run escape append m_rest m_group last_char]. rewrite Hc.
  apply IH. exact Hl.
Qed.

Lemma match_here_line (label l w1 w2 v rest : string) (prev : option ascii) :
  at_boundary prev (l ++ w1 ++ String ":" (w2 ++ v ++ rest)) = true ->
  ci_equal label l = true ->
  string_forall is_space w1 = true ->
  string_forall is_space w2 = true ->
  no_lead v -> v <> EmptyString ->
  string_forall (cs_mem (NOT_IN [CR; LF])) v = true ->
  ends_line rest = true ->
  match_here (label_pattern label) prev
             (l ++ w1 ++ String ":" (w2 ++ v ++ rest))
  = Some (Some v).
Proof.
  intros B C W1 W2 Nl Ne Nv El.
  unfold match_here, label_pattern. cbn [run m_prev m_rest m_group].
  rewrite B, (run_escape_match _ _ _ _ _ _ C). cbn [m_prev m_rest m_group].
  apply max_repeat_greedy; [exact W1 | reflexivity | lia|].
  cbn [m_rest m_group].
  replace (cs_mem (LITERAL ":") ":") with true by reflexivity.
  apply max_repeat_greedy; [exact W2 | | lia |].
  { destruct v as [|c v]; [contradiction|]. simpl in Nl. simpl.
    rewrite Nl. reflexivity. }
  apply max_repeat_greedy; [exact Nv | exact El | |].
  { destruct v; [contradiction | simpl; lia]. }
  cbn [m_rest]. rewrite substring_taken. reflexivity.
Qed.

Lemma search_skips (label pre suf : string) (prev : option ascii) :
  absent_before label pre suf = true ->
  search_from (label_pattern label) prev (pre ++ suf)
  = search_from (label_pattern label) (last_char prev pre) suf.
Proof.
  revert prev. induction pre as [|c pre IH]; intros prev H; [reflexivity|].
  cbn [absent_before] in H. apply andb_prop in H. destruct H as [H1 H2].
  simpl append. cbn [search_from last_char].
  destruct (match_here (label_pattern label) prev (String c (pre ++ suf)))
    as [g|] eqn:M.
  - apply match_here_label in M. destruct M as [_ M].
    simpl append in H1. rewrite M in H1. discriminate H1.
  - apply IH. exact H2.
Qed.

Lemma strip_nonempty (v : string) :
  no_lead v -> v <> EmptyString -> strip v <> EmptyString.
Proof.
  intros Nl Ne. unfold strip. rewrite (lstrip_fix v Nl).
  destruct v as [|c v]; [contradiction|]. simpl in *.
  destruct (rstrip v); rewrite ?Nl; discriminate.
Qed.

(** X5.  When the first occurrence of the label in a text starts at a word
    boundary and is followed by optional whitespace, a colon, optional
    whitespace and a value that runs to the end of the line, the result is
    that value, stripped. *)
Theorem labelled_line_found (label pre l w1 w2 v rest : string) :
  absent_before label pre (l ++ w1 ++ String ":" (w2 ++ v ++ rest)) = true ->
  at_boundary (last_char None pre)
              (l ++ w1 ++ String ":" (w2 ++ v ++ rest)) = true ->
  ci_equal label l = true ->
  string_forall is_space w1 = true ->
  string_forall is_space w2 = true ->
  no_lead v -> v <> EmptyString ->
  string_forall (cs_mem (NOT_IN [CR; LF])) v = true ->
  ends_line rest = true ->
  extract_first_value (pre ++ l ++ w1 ++ String ":" (w2 ++ v ++ rest)) label
  = Some (strip v).
Proof.
  intros Ab B C W1 W2 Nl Ne Nv El.
  unfold extract_first_value, search.
  rewrite (search_skips _ _ _ None Ab).
  pose proof (match_here_line label l w1 w2 v rest _ B C W1 W2 Nl Ne Nv El)
    as M.
  destruct (l ++ w1 ++ String ":" (w2 ++ v ++ rest)) eqn:E;
    cbn [search_from]; rewrite M;
    apply or_None_of_nonempty; apply strip_nonempty; assumption.
Qed.

Lemma labelled_line_found_witness :
  extract_first_value
    (("Job: 500" ++ nl ++ "Asm: A1" ++ nl)
       ++ "PART" ++ " " ++ String ":" ("  " ++ "P1 x " ++ (nl ++ "more")))
    "Part"
  = Some (strip "P1 x ").
Proof.
  apply labelled_line_found; try (vm_compute; reflexivity).
  intros C. discriminate C.
Defined.

(** *** What follows the first value *)

Lemma str_app_split (a b c d : string) :
  a ++ b = c ++ d ->
  (exists m : string, c = a ++ m /\ b = m ++ d)
  \/ (exists m : string, a = c ++ m /\ d = m ++ b).
Proof.
  revert c. induction a as [|x a IH]; intros c H.
  - left. exists c. simpl in *. auto.
  - destruct c as [|y c].
    + right. exists (String x a). simpl in *. auto.
    + simpl in H. injection H as -> H.
      destruct (IH _ H) as [(m & -> & ->)|(m & -> & ->)].
      * left. exists m. auto.
      * right. exists m. auto.
Qed.

(** What follows a longer prefix is a tail of what follows a shorter one. *)
Lemma str_app_tail (a m p t : string) :
  a ++ m = p ++ t -> length a <= length p ->
  exists z : string, m = z ++ t.
Proof.
  intros H L. destruct (str_app_split _ _ _ _ H) as [(k & -> & ->)|(k & -> & ->)].
  - exists k. reflexivity.
  - rewrite str_length_app in L. destruct k as [|y k]; [|simpl in L; lia].
    exists EmptyString. reflexivity.
Qed.

Lemma ci_equal_length (label l : string) :
  ci_equal label l = true -> length l = length label.
Proof.
  revert l. induction label as [|a label IH]; intros [|c l] H;
    try discriminate H; [reflexivity|].
  cbn [ci_equal] in H. apply andb_prop in H. destruct H as [_ H].
  simpl. rewrite (IH _ H). reflexivity.
Qed.

Lemma is_break_iff (c : ascii) : is_break c = true <-> c = CR \/ c = LF.
Proof.
  split.
  - destruct c as [[] [] [] [] [] [] [] []]; vm_compute; intros H;
      try discriminate H; auto.
  - intros [->| ->]; reflexivity.
Qed.

Lemma is_break_space (c : ascii) : is_break c = true -> is_space c = true.
Proof. intros H. apply is_break_iff in H. destruct H as [->| ->]; reflexivity. Qed.

Lemma string_forall_impl (p q : ascii -> bool) (s : string) :
  (forall c, p c = true -> q c = true) ->
  string_forall p s = true -> string_forall q s = true.
Proof.
  intros I. induction s as [|c s IH]; simpl; [reflexivity|].
  intros H. apply andb_prop in H. destruct H as [Hc Hs].
  rewrite (I _ Hc), (IH Hs). reflexivity.
Qed.

Lemma take_line_split (s : string) :
  exists rest : string,
    s = take_line s ++ rest /\ ends_line rest = true
    /\ string_forall (cs_mem (NOT_IN [CR; LF])) (take_line s) = true.
Proof.
  induction s as [|c s (rest & E & L & F)].
  - exists EmptyString. auto.
  - cbn [take_line]. destruct (cs_mem (NOT_IN [CR; LF]) c) eqn:M.
    + exists rest. cbn [append string_forall]. rewrite M, F, <- E. auto.
    + exists (String c s). cbn [append ends_line string_forall].
      rewrite M. auto.
Qed.

(** The text either holds line breaks only, or has a first character that
    is not one. *)
Lemma first_unbroken (u : string) :
  string_forall is_break u = true
  \/ exists (n : string) (y : ascii) (u' : string),
       u = n ++ String y u' /\ string_forall is_break n = true
       /\ cs_mem (NOT_IN [CR; LF]) y = true.
Proof.
  induction u as [|c u IH].
  - left. reflexivity.
  - destruct (is_break c) eqn:B.
    + destruct IH as [IH|(n & y & u' & -> & N & Y)].
      * left. simpl. rewrite B, IH. reflexivity.
      * right. exists (String c n), y, u'. simpl. rewrite B, N. auto.
    + right. exists EmptyString, c, u. unfold is_break in B.
      apply negb_false_iff in B. auto.
Qed.

(** A repetition followed by a continuation that can succeed after some
    part of it succeeds one way or another. *)
Lemma max_repeat_complete {A : Type} (cs : charset) (taken rest : string)
    (n : nat) (prev : option ascii)
    (k : option ascii -> string -> option A) :
  string_forall (cs_mem cs) taken = true ->
  n <= length taken ->
  k (last_char prev taken) rest <> None ->
  max_repeat cs n prev (taken ++ rest) k <> None.
Proof.
  revert n prev. induction taken as [|c t IH]; intros n prev F L K.
  - simpl in L. assert (n = 0) as -> by lia. simpl in K. simpl append.
    destruct rest as [|c r]; cbn [max_repeat]; [exact K|].
    destruct (cs_mem cs c); [|exact K].
    destruct (max_repeat cs (pred 0) (Some c) r k); [discriminate | exact K].
  - simpl in F. apply andb_prop in F. destruct F as [Fc Ft].
    simpl append. cbn [max_repeat]. rewrite Fc.
    destruct (max_repeat cs (pred n) (Some c) (t ++ rest) k) eqn:R;
      [discriminate|].
    exfalso. revert R. apply IH; [exact Ft | simpl in L; lia | exact K].
Qed.

(** The pattern matches wherever the label, whitespace, a colon, whitespace
    and one character that is no line break follow a boundary. *)
Lemma match_here_exists (label l w1 w2 u : string) (y : ascii)
    (prev : option ascii) :
  at_boundary prev (l ++ w1 ++ String ":" (w2 ++ String y u)) = true ->
  ci_equal label l = true ->
  string_forall is_space w1 = true ->
  string_forall is_space w2 = true ->
  cs_mem (NOT_IN [CR; LF]) y = true ->
  match_here (label_pattern label) prev
             (l ++ w1 ++ String ":" (w2 ++ String y u)) <> None.
Proof.
  intros B C W1 W2 Y.
  unfold match_here, label_pattern. cbn [run m_prev m_rest m_group].
  rewrite B, (run_escape_match _ _ _ _ _ _ C). cbn [m_prev m_rest m_group].
  apply max_repeat_complete; [exact W1 | lia|].
  cbn [m_rest m_group].
  replace (cs_mem (LITERAL ":") ":") with true by reflexivity.
  apply max_repeat_complete; [exact W2 | lia|].
  change (String y u) with (String y EmptyString ++ u).
  apply max_repeat_complete;
    [cbn [string_forall]; rewrite Y; reflexivity | simpl; lia|].
  discriminate.
Qed.

Lemma lstrip_app_space (w x : string) :
  string_forall is_space w = true -> lstrip (w ++ x) = lstrip x.
Proof.
  induction w as [|c w IH]; simpl; [reflexivity|].
  intros H. apply andb_prop in H. destruct H as [Hc Hw].
  rewrite Hc. apply IH. exact Hw.
Qed.

Lemma lstrip_app_nonblank (a b : string) :
  lstrip a <> EmptyString -> lstrip (a ++ b) = lstrip a ++ b.
Proof.
  induction a as [|c a IH]; simpl; [intros H; contradiction|].
  destruct (is_space c); [exact IH | reflexivity].
Qed.

Lemma at_boundary_app (prev : option ascii) (s t : string) :
  s <> EmptyString -> at_boundary prev (s ++ t) = at_boundary prev s.
Proof. destruct s; [intros H; contradiction | reflexivity]. Qed.

(** Where the pattern matches with a value that is not blank, the value
    starts at the first character after the colon that is no whitespace and
    runs to the end of that line. *)
Lemma match_here_value (label : string) (prev : option ascii)
    (s g : string) :
  match_here (label_pattern label) prev s = Some (Some g) ->
  strip g <> EmptyString ->
  exists l w1 w2 rest : string,
    s = l ++ w1 ++ String ":" (w2 ++ g ++ rest)
    /\ ci_equal label l = true
    /\ string_forall is_space w1 = true
    /\ string_forall is_space w2 = true
    /\ no_lead g /\ g <> EmptyString
    /\ string_forall (cs_mem (NOT_IN [CR; LF])) g = true
    /\ ends_line rest = true.
Proof.
  intros M Hg.
  destruct (match_here_label _ _ _ _ M) as [B _].
  destruct (match_here_shape _ _ _ _ M)
    as (l & w1 & w2 & cap & rest & E & C & W1 & W2 & _ & _ & G).
  injection G as <-.
  assert (Lg : lstrip g <> EmptyString).
  { intros Z. apply Hg. unfold strip. rewrite Z. reflexivity. }
  destruct (lstrip_split (w2 ++ g ++ rest)) as (w & Ew & Fw).
  rewrite (lstrip_app_space _ _ W2), (lstrip_app_nonblank _ _ Lg) in Ew.
  pose proof (lstrip_no_lead g) as Nl.
  destruct (lstrip g) as [|y r] eqn:Eg; [contradiction|]. simpl in Nl.
  assert (Y : cs_mem (NOT_IN [CR; LF]) y = true).
  { destruct (cs_mem (NOT_IN [CR; LF]) y) eqn:Y; [reflexivity|].
    assert (S : is_space y = true)
      by (apply is_break_space; unfold is_break; rewrite Y; reflexivity).
    rewrite S in Nl. discriminate Nl. }
  destruct (take_line_split (String y r ++ rest)) as (rest0 & Er & El & Fv).
  set (v := take_line (String y r ++ rest)) in *.
  assert (Ev : exists v', v = String y v').
  { unfold v. simpl append. cbn [take_line]. rewrite Y. eauto. }
  destruct Ev as (v' & Ev).
  assert (M' : match_here (label_pattern label) prev s = Some (Some v)).
  { rewrite E, Ew, Er. rewrite E, Ew, Er in B.
    apply match_here_line; try assumption.
    - rewrite Ev. exact Nl.
    - rewrite Ev. discriminate. }
  rewrite M in M'. injection M' as ->.
  exists l, w1, w, rest0. rewrite E, Ew, Er.
  repeat split; try assumption; try reflexivity.
  - rewrite Ev. exact Nl.
  - rewrite Ev. discriminate.
Qed.

(** A match with a value that is not blank is the same match when a line
    break and more text follow the text. *)
Lemma match_here_extend (label : string) (prev : option ascii)
    (s g later : string) (c : ascii) :
  match_here (label_pattern label) prev s = Some (Some g) ->
  strip g <> EmptyString ->
  is_break c = true ->
  match_here (label_pattern label) prev (s ++ String c later) = Some (Some g).
Proof.
  intros M Hg Hc.
  destruct (match_here_label _ _ _ _ M) as [B _].
  destruct (match_here_value _ _ _ _ M Hg)
    as (l & w1 & w2 & rest & -> & C & W1 & W2 & Nl & Ne & Nv & El).
  assert (E : (l ++ w1 ++ String ":" (w2 ++ g ++ rest)) ++ String c later
              = l ++ w1 ++ String ":" (w2 ++ g ++ rest ++ String c later)).
  { rewrite !str_app_assoc. simpl append. rewrite !str_app_assoc.
    reflexivity. }
  assert (N : l ++ w1 ++ String ":" (w2 ++ g ++ rest) <> EmptyString)
    by (destruct l; [destruct w1|]; discriminate).
  rewrite <- (at_boundary_app _ _ (String c later) N), E in B. rewrite E.
  apply match_here_line; try assumption.
  destruct rest as [|x rest]; [|exact El].
  simpl. exact Hc.
Qed.

(** An offset at which the pattern does not match, before one at which it
    does, is still no match when a line break and more text follow the
    text. *)
Lemma match_here_still_fails (label : string) (prev : option ascii)
    (x c : ascii) (s later : string) (g : option string) :
  match_here (label_pattern label) prev (String x s) = None ->
  search_from (label_pattern label) (Some x) s = Some g ->
  is_break c = true ->
  match_here (label_pattern label) prev (String x s ++ String c later) = None.
Proof.
  intros M S Hc.
  destruct (match_here (label_pattern label) prev
              (String x s ++ String c later)) as [g'|] eqn:M'; [|reflexivity].
  exfalso.
  destruct (match_here_label _ _ _ _ M') as [B _].
  change (at_boundary prev (String x s) = true) in B.
  destruct (match_here_shape _ _ _ _ M')
    as (l' & w1' & w2' & cap' & rest' & E' & C' & W1' & _).
  destruct (search_from_found _ _ _ _ S) as (pre & suf & Es & Ms).
  destruct (match_here_shape _ _ _ _ Ms)
    as (l & w1 & w2 & cap & rest & E & C & W1 & W2 & Ncap & Ne & _).
  pose proof (ci_equal_length _ _ C') as L'.
  pose proof (ci_equal_length _ _ C) as L.
  (* the text, seen from the later match *)
  assert (T : String x s
              = (String x pre ++ l) ++ w1 ++ String ":" (w2 ++ cap ++ rest)).
  { rewrite Es, E. simpl append. rewrite !str_app_assoc. reflexivity. }
  assert (LP : length l' <= length (String x pre ++ l)).
  { rewrite str_length_app. simpl. lia. }
  assert (NoColon : forall (w z t : string),
            string_forall is_space w = true -> w = z ++ String ":" t -> False).
  { intros w z t F ->. rewrite string_forall_app in F.
    apply andb_prop in F. destruct F as [_ F]. simpl in F.
    discriminate F. }
  destruct (str_app_split _ _ _ _ E') as [(m & El' & _)|(m & Em & E2)].
  - (* the label would not fit in the text *)
    assert (Ll : length l' = length (String x s) + length m)
      by (rewrite El'; apply str_length_app).
    rewrite T in Ll. rewrite !str_length_app in Ll. simpl in Ll. lia.
  - destruct (str_app_split _ _ _ _ E2) as [(m2 & Em2 & E3)|(m2 & Ew & _)].
    + (* the colon is in the text *)
      destruct m2 as [|y u].
      { simpl in E3. injection E3 as E3 _. subst c. discriminate Hc. }
      simpl in E3. injection E3 as <- _.
      destruct (first_unbroken u) as [U|(n & y & u' & Eu & N & Y)].
      * (* line breaks only after it *)
        assert (T2 : (l' ++ w1') ++ String ":" u
                     = ((String x pre ++ l) ++ w1)
                         ++ String ":" (w2 ++ cap ++ rest)).
        { transitivity (String x s).
          - rewrite Em, Em2, !str_app_assoc. reflexivity.
          - rewrite T, !str_app_assoc. reflexivity. }
        assert (Same : u = w2 ++ cap ++ rest -> False).
        { intros Eu. rewrite Eu, !string_forall_app in U.
          apply andb_prop in U. destruct U as [_ U].
          apply andb_prop in U. destruct U as [U _].
          destruct cap as [|z cap]; [contradiction|].
          cbn [string_forall] in U, Ncap.
          apply andb_prop in Ncap. destruct Ncap as [Ncap _].
          unfold is_break in U. rewrite Ncap in U. discriminate U. }
        assert (InBreaks : forall z t : string, u = z ++ String ":" t -> False).
        { intros z t Eu. rewrite Eu, string_forall_app in U.
          apply andb_prop in U. destruct U as [_ U]. simpl in U.
          discriminate U. }
        destruct (str_app_split _ _ _ _ T2) as [(k & Ek & E4)|(k & Ek & E4)].
        -- destruct k as [|z k].
           ++ simpl in E4. injection E4 as E4. exact (Same E4).
           ++ simpl in E4. injection E4 as <- E4. exact (InBreaks _ _ E4).
        -- destruct k as [|z k].
           ++ simpl in E4. injection E4 as E4. symmetry in E4. exact (Same E4).
           ++ simpl in E4. injection E4 as <- _.
              assert (Ek' : l' ++ w1'
                            = (String x pre ++ l) ++ w1 ++ String ":" k)
                by (rewrite Ek, !str_app_assoc; reflexivity).
              destruct (str_app_tail _ _ _ _ Ek' LP) as (z & Ez).
              rewrite <- str_app_assoc in Ez.
              exact (NoColon _ _ _ W1' Ez).
      * (* a character that is no line break after it: a match *)
        assert (T3 : String x s = l' ++ w1' ++ String ":" (n ++ String y u')).
        { rewrite Em, Em2, Eu. reflexivity. }
        rewrite T3 in M, B. revert M.
        apply match_here_exists; try assumption.
        exact (string_forall_impl _ _ _ is_break_space N).
    + (* whitespace from the label to the end of the text *)
      assert (Wm : string_forall is_space m = true).
      { rewrite Ew, string_forall_app in W1'. apply andb_prop in W1'.
        apply W1'. }
      rewrite Em in T.
      destruct (str_app_tail _ _ _ _ T LP) as (z & Ez).
      rewrite <- str_app_assoc in Ez.
      exact (NoColon _ _ _ Wm Ez).
Qed.

(** The first match with a value that is not blank stays the first match,
    with the same value, when a line break and more text follow the text. *)
Lemma search_from_extend (label : string) (s : string) (prev : option ascii)
    (g later : string) (c : ascii) :
  search_from (label_pattern label) prev s = Some (Some g) ->
  strip g <> EmptyString ->
  is_break c = true ->
  search_from (label_pattern label) prev (s ++ String c later)
  = Some (Some g).
Proof.
  intros S Hg Hc. revert prev S.
  induction s as [|x s IH]; intros prev S; cbn [search_from] in S.
  - destruct (match_here (label_pattern label) prev EmptyString)
      as [g'|] eqn:M; [|discriminate S].
    destruct (match_here_shape _ _ _ _ M) as (l & w1 & ? & ? & ? & E & _).
    destruct l; [destruct w1|]; discriminate E.
  - destruct (match_here (label_pattern label) prev (String x s))
      as [g'|] eqn:M.
    + injection S as ->.
      pose proof (match_here_extend _ _ _ _ later _ M Hg Hc) as M'.
      simpl append in M' |- *. cbn [search_from]. rewrite M'. reflexivity.
    + pose proof (match_here_still_fails _ _ _ _ _ later _ M S Hc) as M'.
      simpl append in M' |- *. cbn [search_from]. rewrite M'.
      apply IH. exact S.
Qed.

Lemma value_extends (text later label v : string) (c : ascii) :
  extract_first_value text label = Some v ->
  is_break c = true ->
  extract_first_value (text ++ String c later) label = Some v.
Proof.
  unfold extract_first_value, search. intros H Hc.
  destruct (search_from (label_pattern label) None text) as [[g|]|] eqn:S;
    try discriminate H.
  assert (Hg : strip g <> EmptyString).
  { intros Z. rewrite Z in H. discriminate H. }
  rewrite (search_from_extend _ _ _ _ later _ S Hg Hc). exact H.
Qed.

(** C8, as the code has it (the first occurrence wins).  When the label
    pattern matches at offset [i] of the text and at no offset before it,
    the result is the value of that occurrence.  When that value is not
    absent, it stays the result whatever is added to the text after a line
    break: nothing on later lines, later occurrences of the label included,
    has a part in it.  For instance "see Part: X" yields X, and still does
    when "Part: Y" follows on the next line. *)
Theorem first_occurrence_wins (text label : string) (i : nat) :
  occurs_at text label i = true ->
  (forall k, k < i -> occurs_at text label k = false) ->
  extract_first_value text label = value_at text label i
  /\ (forall (v later : string) (c : ascii),
        value_at text label i = Some v ->
        c = CR \/ c = LF ->
        extract_first_value (text ++ String c later) label = Some v).
Proof.
  intros Oi Hleft.
  pose proof (leftmost_value text label i Oi Hleft) as E.
  split; [exact E|].
  intros v later c V Hc. apply value_extends.
  - rewrite E. exact V.
  - apply is_break_iff. exact Hc.
Qed.

Lemma first_occurrence_wins_witness :
  extract_first_value "see Part: X" "Part" = value_at "see Part: X" "Part" 4
  /\ value_at "see Part: X" "Part" 4 = Some "X"
  /\ extract_first_value ("see Part: X" ++ nl ++ "Part: Y") "Part" = Some "X".
Proof.
  assert (O : occurs_at "see Part: X" "Part" 4 = true)
    by (vm_compute; reflexivity).
  assert (Hleft : forall k, k < 4 -> occurs_at "see Part: X" "Part" k = false).
  { intros k Hk.
    do 4 (destruct k as [|k]; [vm_compute; reflexivity|]). lia. }
  destruct (first_occurrence_wins "see Part: X" "Part" 4 O Hleft) as [E F].
  split; [exact E|]. split; [vm_compute; reflexivity|].
  apply (F "X" "Part: Y" LF); [vm_compute; reflexivity | right; reflexivity].
Defined.

(** C8 as stated fails when only whitespace, a line break included,
    separates the colon of the first occurrence from a later one: the
    pattern matches at offsets 0 and 6 of "Part:", a line break and
    "Part: Y", with different values, and the result holds the later
    occurrence; with Z for Y in the later occurrence, the twelve
    characters before it being the same, the result changes with it. *)
Lemma later_occurrence_counterexample :
  occurs_at ("Part:" ++ nl ++ "Part: Y") "Part" 0 = true
  /\ occurs_at ("Part:" ++ nl ++ "Part: Y") "Part" 6 = true
  /\ value_at ("Part:" ++ nl ++ "Part: Y") "Part" 0
     <> value_at ("Part:" ++ nl ++ "Part: Y") "Part" 6
  /\ value_at ("Part:" ++ nl ++ "Part: Y") "Part" 6 = Some "Y"
  /\ value_at ("Part:" ++ nl ++ "Part: Z") "Part" 6 = Some "Z"
  /\ substring 0 12 ("Part:" ++ nl ++ "Part: Y")
     = substring 0 12 ("Part:" ++ nl ++ "Part: Z")
  /\ extract_first_value ("Part:" ++ nl ++ "Part: Y") "Part" = Some "Part: Y"
  /\ extract_first_value ("Part:" ++ nl ++ "Part: Z") "Part" = Some "Part: Z"
  /\ extract_first_value ("Part:" ++ nl ++ "Part: Y") "Part"
     <> extract_first_value ("Part:" ++ nl ++ "Part: Z") "Part".
Proof.
  repeat split; try (vm_compute; reflexivity);
    vm_compute; intros C; discriminate C.
Qed.

Lemma step_wf (st : loop_state) (idx : nat) (text : string) :
  wf_state st -> wf_state (step st idx text).
Proof.
  unfold wf_state, step. intros W.
  destruct (opt_or_None (extract_first_part text)) as [p|]; [|exact W].
  destruct (last_part st) as [lp|] eqn:L.
  - destruct W as (a & s & e & A & Rs & Re).
    destruct (_ && _); cbn.
    + exists a, s, idx. auto.
    + exists (or_empty (opt_or_None (extract_first_asm text))), idx, idx. auto.
  - cbn. exists (or_empty (opt_or_None (extract_first_asm text))), idx, idx.
    auto.
Qed.

Lemma step_absorb (st : loop_state) (idx : nat) (text : string) :
  wf_state st ->
  rev (flush_range (step st idx text))
  = absorb (rev (flush_range st)) (idx, text).
Proof.
  unfold wf_state, absorb. cbn [fst snd]. intros W.
  destruct (extract_first_part text) as [p|] eqn:P.
  - destruct (last_part st) as [lp|] eqn:L.
    + destruct W as (a & s & e & A & Rs & Re).
      assert (F : flush_range st
                  = (file_rows st ++ [mkRange s e lp a])%list).
      { unfold flush_range. rewrite L, A, Rs, Re. reflexivity. }
      rewrite F, rev_unit. cbn [part asm start_page].
      destruct (String.eqb_spec p lp) as [->|Dp];
        [destruct (String.eqb_spec (page_asm text) a) as [Ea|Da]|]; cbn [andb].
      * rewrite <- Ea in A.
        pose proof (step_extend st idx e text lp P L A Re) as R.
        apply run_vars_inv in R. destruct R as (L' & A' & Rs' & Re' & R').
        unfold flush_range. rewrite L', A', Rs', Re', R', Rs, rev_unit.
        reflexivity.
      * assert (D : (lp, page_asm text) <> (lp, a)) by congruence.
        pose proof (step_split st idx s e text lp lp a P L A Rs Re D) as R.
        apply run_vars_inv in R. destruct R as (L' & A' & Rs' & Re' & R').
        unfold flush_range. rewrite L', A', Rs', Re', R', !rev_unit.
        reflexivity.
      * assert (D : (p, page_asm text) <> (lp, a)) by congruence.
        pose proof (step_split st idx s e text p lp a P L A Rs Re D) as R.
        apply run_vars_inv in R. destruct R as (L' & A' & Rs' & Re' & R').
        unfold flush_range. rewrite L', A', Rs', Re', R', !rev_unit.
        reflexivity.
    + pose proof (step_start st idx text p P L) as R.
      apply run_vars_inv in R. destruct R as (L' & A' & Rs' & Re' & R').
      unfold flush_range. rewrite L', A', Rs', Re', R', L, W. reflexivity.
  - apply f_equal. apply flush_range_run_vars. apply step_skip. exact P.
Qed.

Lemma loop_absorb (ipages : list (nat * string)) (st : loop_state) :
  wf_state st ->
  rev (flush_range (loop st ipages))
  = fold_left absorb ipages (rev (flush_range st)).
Proof.
  revert st. induction ipages as [|[i t] l IH]; intros st W.
  - reflexivity.
  - cbn [fold_left]. rewrite <- step_absorb by exact W.
    apply (IH (step st i t)). apply step_wf. exact W.
Qed.

(** The records of a document, latest first, are the pages absorbed one by
    one. *)
Lemma compress_absorb (pages : list string) :
  rev (records (compress pages)) = fold_left absorb (enumerate 1 pages) [].
Proof.
  unfold compress. cbn [records]. apply (loop_absorb _ init_state).
  reflexivity.
Qed.

(** *** What the absorbed records keep *)

Lemma page_at_bound (pages : list string) (i : nat) (text : string) :
  page_at pages i = Some text -> 1 <= i <= List.length pages.
Proof.
  destruct i as [|k]; simpl; [discriminate|]. intros H.
  assert (k < List.length pages) by (apply nth_error_Some; congruence). lia.
Qed.

Lemma qualifies_old (pages more : list string) (i : nat) (p a : string) :
  qualifies pages i p a -> qualifies (pages ++ more)%list i p a.
Proof.
  intros (text & H & P & A). exists text. split; [|auto].
  rewrite page_at_old; [exact H|]. apply page_at_bound in H. lia.
Qed.

Lemma qualifies_new (pages : list string) (text p : string) :
  extract_first_part text = Some p ->
  qualifies (pages ++ [text])%list (S (List.length pages)) p (page_asm text).
Proof. intros P. exists text. rewrite page_at_new. auto. Qed.

Lemma qualifies_snoc (pages : list string) (text : string) (i : nat)
    (p a : string) :
  qualifies (pages ++ [text])%list i p a ->
  qualifies pages i p a
  \/ (i = S (List.length pages) /\ extract_first_part text = Some p
      /\ page_asm text = a).
Proof.
  intros (t & H & P & A).
  pose proof (page_at_bound _ _ _ H) as B. rewrite length_app in B. simpl in B.
  destruct (Nat.eq_dec i (S (List.length pages))) as [->|Ne].
  - right. rewrite page_at_new in H. injection H as <-. auto.
  - left. rewrite page_at_old in H by lia. exists t. auto.
Qed.

Lemma anchored_old (pages more : list string) (r : RangeRecord) :
  anchored pages r -> anchored (pages ++ more)%list r.
Proof.
  intros (H1 & H2 & H3 & H4 & H5).
  refine (conj H1 (conj H2 (conj _ (conj _ _)))).
  - rewrite length_app. lia.
  - apply qualifies_old. exact H4.
  - apply qualifies_old. exact H5.
Qed.

Lemma absorb_inv (pages : list string) (acc : list RangeRecord)
    (text : string) :
  acc_inv pages acc ->
  acc_inv (pages ++ [text])%list (absorb acc (S (List.length pages), text)).
Proof.
  intros (An & So & Ad & Co).
  assert (An' : Forall (anchored (pages ++ [text])%list) acc).
  { eapply Forall_impl; [|exact An]. intros r. apply anchored_old. }
  assert (Len : List.length (pages ++ [text])%list = S (List.length pages)).
  { rewrite length_app. simpl. lia. }
  assert (Far : Forall (fun r => before r
                   (mkRange (S (List.length pages)) (S (List.length pages))
                            EmptyString EmptyString)) acc).
  { eapply Forall_impl; [|exact An]. intros r (_ & _ & H & _).
    unfold before. simpl. lia. }
  unfold absorb. cbn [fst snd].
  destruct (extract_first_part text) as [p|] eqn:P.
  - pose proof (qualifies_new pages text p P) as Qn.
    assert (New : anchored (pages ++ [text])%list
                    (mkRange (S (List.length pages)) (S (List.length pages))
                             p (page_asm text))).
    { unfold anchored. cbn. rewrite Len. repeat split; try lia; exact Qn. }
    destruct acc as [|r acc'].
    + (* the first record *)
      split; [|split; [|split]].
      * constructor; [exact New | constructor].
      * constructor; constructor.
      * exact I.
      * intros i q a Q. apply qualifies_snoc in Q.
        destruct Q as [Q | (-> & Q & <-)].
        -- destruct (Co i q a Q) as (r & [] & _).
        -- rewrite P in Q. injection Q as <-.
           eexists. split; [left; reflexivity|]. cbn. repeat split; lia.
    + destruct (String.eqb_spec p (part r)) as [Ep|Dp];
        [destruct (String.eqb_spec (page_asm text) (asm r)) as [Ea|Da]|];
        cbn [andb].
      * (* the latest record grows *)
        inversion An' as [|? ? Ar An'']; subst.
        inversion So as [|? ? So' Fr]; subst.
        destruct Ar as (H1 & H2 & H3 & H4 & H5).
        split; [|split; [|split]].
        -- constructor; [|exact An''].
           unfold anchored. cbn. rewrite Len, Ea.
           refine (conj H1 (conj _ (conj _ (conj H4 _)))); try lia.
           rewrite <- Ea. exact Qn.
        -- constructor; [exact So' | exact Fr].
        -- destruct acc' as [|y tl]; [exact I|].
           destruct Ad as [D Ad']. split; [|exact Ad'].
           intros [S1 S2]. apply D. split; cbn in *; congruence.
        -- intros i q a Q. apply qualifies_snoc in Q.
           destruct Q as [Q | (-> & Q & <-)].
           ++ destruct (Co i q a Q) as (x & [<-|In'] & R & Fp & Fa).
              ** eexists. split; [left; reflexivity|]. cbn.
                 inversion An as [|? ? (_ & _ & B & _) _]; subst.
                 repeat split; try lia; congruence.
              ** exists x. split; [right; exact In'|]. auto.
           ++ rewrite P in Q. injection Q as <-.
              eexists. split; [left; reflexivity|]. cbn.
              repeat split; lia.
      * (* the asm changed *)
        split; [|split; [|split]].
        -- constructor; [exact New | exact An'].
        -- constructor; [exact So | exact Far].
        -- split; [|exact Ad]. intros [_ S2]. cbn in S2. contradiction.
        -- intros i q a Q. apply qualifies_snoc in Q.
           destruct Q as [Q | (-> & Q & <-)].
           ++ destruct (Co i q a Q) as (x & In' & R).
              exists x. split; [right; exact In' | exact R].
           ++ rewrite P in Q. injection Q as <-.
              eexists. split; [left; reflexivity|]. cbn.
              repeat split; lia.
      * (* the part changed *)
        split; [|split; [|split]].
        -- constructor; [exact New | exact An'].
        -- constructor; [exact So | exact Far].
        -- split; [|exact Ad]. intros [S1 _]. cbn in S1. contradiction.
        -- intros i q a Q. apply qualifies_snoc in Q.
           destruct Q as [Q | (-> & Q & <-)].
           ++ destruct (Co i q a Q) as (x & In' & R).
              exists x. split; [right; exact In' | exact R].
           ++ rewrite P in Q. injection Q as <-.
              eexists. split; [left; reflexivity|]. cbn.
              repeat split; lia.
  - (* a page without a Part *)
    split; [exact An' | split; [exact So | split; [exact Ad|]]].
    intros i q a Q. apply qualifies_snoc in Q.
    destruct Q as [Q | (_ & Q & _)]; [exact (Co i q a Q)|].
    rewrite P in Q. discriminate Q.
Qed.

Lemma fold_absorb_inv (rest pages : list string) (acc : list RangeRecord) :
  acc_inv pages acc ->
  acc_inv (pages ++ rest)%list
          (fold_left absorb (enumerate (S (List.length pages)) rest) acc).
Proof.
  revert pages acc. induction rest as [|t rest IH]; intros pages acc H.
  - rewrite app_nil_r. exact H.
  - cbn [enumerate fold_left]. apply (absorb_inv pages acc t) in H.
    apply IH in H. rewrite <- app_assoc in H. cbn [app] in H.
    rewrite length_app in H. cbn [List.length] in H.
    rewrite Nat.add_1_r in H. exact H.
Qed.

Lemma compress_acc_inv (pages : list string) :
  acc_inv pages (rev (records (compress pages))).
Proof.
  rewrite compress_absorb. apply (fold_absorb_inv pages [] []).
  split; [constructor | split; [constructor | split; [exact I|]]].
  intros i p a (text & H & _). destruct i as [|[|k]]; discriminate H.
Qed.

Lemma StronglySorted_snoc {A : Type} (R : A -> A -> Prop) (l : list A) (x : A) :
  StronglySorted R l -> Forall (fun y => R y x) l ->
  StronglySorted R (l ++ [x]).
Proof.
  induction 1 as [|y l S IH F]; intros Fx; simpl.
  - constructor; constructor.
  - inversion Fx; subst. constructor; [apply IH; assumption|].
    apply Forall_app.
    split; [exact F | constructor; [assumption | constructor]].
Qed.

Lemma StronglySorted_rev {A : Type} (R : A -> A -> Prop) (l : list A) :
  StronglySorted (fun x y => R y x) l -> StronglySorted R (rev l).
Proof.
  induction 1 as [|y l S IH F]; simpl; [constructor|].
  apply StronglySorted_snoc; [exact IH|]. apply Forall_rev. exact F.
Qed.

Lemma StronglySorted_pair {A : Type} (R : A -> A -> Prop) (l : list A)
    (x y : A) :
  StronglySorted R l -> In x l -> In y l -> x = y \/ R x y \/ R y x.
Proof.
  induction 1 as [|z l S IH F]; intros Hx Hy; [destruct Hx|].
  rewrite Forall_forall in F.
  destruct Hx as [<-|Hx], Hy as [<-|Hy]; auto.
Qed.

Lemma adj_differ_split (l1 l2 : list RangeRecord) (x y : RangeRecord) :
  adj_differ (l1 ++ x :: y :: l2)%list -> ~ same_fields x y.
Proof.
  induction l1 as [|z l1 IH]; intros H.
  - exact (proj1 H).
  - apply IH. destruct l1 as [|w l1]; cbn in H; exact (proj2 H).
Qed.

(** X6.  The records of a document are in page order and do not overlap: each
    ends before every later one starts. *)
Theorem records_sorted (pages : list string) :
  StronglySorted before (records (compress pages)).
Proof.
  destruct (compress_acc_inv pages) as (_ & So & _).
  apply StronglySorted_rev in So. rewrite rev_involutive in So. exact So.
Qed.

(** X7.  Two records next to each other differ in part or in asm: a run is
    never cut in two. *)
Theorem adjacent_records_differ (pages : list string)
    (l1 l2 : list RangeRecord) (r1 r2 : RangeRecord) :
  records (compress pages) = (l1 ++ r1 :: r2 :: l2)%list ->
  part r1 <> part r2 \/ asm r1 <> asm r2.
Proof.
  intros E. destruct (compress_acc_inv pages) as (_ & _ & Ad & _).
  rewrite E, rev_app_distr in Ad. cbn [rev] in Ad.
  rewrite <- !app_assoc in Ad. cbn [app] in Ad.
  pose proof (adj_differ_split (rev l2) (rev l1) r2 r1 Ad) as D.
  destruct (string_dec (part r1) (part r2)) as [Ep|Dp]; [|left; exact Dp].
  right. intros Ea. apply D. split; congruence.
Qed.

Lemma adjacent_records_differ_witness :
  part (mkRange 1 1 "P1" "A1") <> part (mkRange 2 2 "P1" "A2")
  \/ asm (mkRange 1 1 "P1" "A1") <> asm (mkRange 2 2 "P1" "A2").
Proof.
  apply (adjacent_records_differ
           ["Part: P1" ++ nl ++ "Asm: A1"; "Part: P1" ++ nl ++ "Asm: A2"]
           [] []).
  vm_compute. reflexivity.
Defined.

(** X8.  Every page that yields a Part lies in exactly one record of the
    document, and that record has the page's part and asm. *)
Theorem qualifying_page_covered (pages : list string) (i : nat)
    (text p : string) :
  page_at pages i = Some text ->
  extract_first_part text = Some p ->
  exists r : RangeRecord,
    In r (records (compress pages))
    /\ start_page r <= i <= end_page r
    /\ part r = p /\ asm r = page_asm text
    /\ forall r' : RangeRecord,
         In r' (records (compress pages)) ->
         start_page r' <= i <= end_page r' -> r' = r.
Proof.
  intros H P. destruct (compress_acc_inv pages) as (_ & So & _ & Co).
  destruct (Co i p (page_asm text)) as (r & Hin & R & Fp & Fa).
  { exists text. auto. }
  exists r. split; [apply in_rev; exact Hin|].
  repeat split; try assumption; try lia.
  intros r' Hin' R'. apply in_rev in Hin'.
  destruct (StronglySorted_pair _ _ r' r So Hin' Hin)
    as [E|[B|B]]; [exact E | |]; unfold before in B; lia.
Qed.

Lemma qualifying_page_covered_witness :
  exists r : RangeRecord,
    In r (records (compress ["Part: P1"; "Part: P1"; "Part: P2"]))
    /\ start_page r <= 2 <= end_page r
    /\ part r = "P1" /\ asm r = page_asm "Part: P1"
    /\ forall r' : RangeRecord,
         In r' (records (compress ["Part: P1"; "Part: P1"; "Part: P2"])) ->
         start_page r' <= 2 <= end_page r' -> r' = r.
Proof.
  apply (qualifying_page_covered _ 2 "Part: P1" "P1"); vm_compute; reflexivity.
Defined.

(** X9.  The first and the last page of every record yield a Part, with the
    record's part and asm: no record starts or ends on a skipped page. *)
Theorem record_endpoints_qualify (pages : list string) (r : RangeRecord) :
  In r (records (compress pages)) ->
  qualifies pages (start_page r) (part r) (asm r)
  /\ qualifies pages (end_page r) (part r) (asm r).
Proof.
  intros Hin. destruct (compress_acc_inv pages) as (An & _).
  rewrite Forall_forall in An. apply in_rev in Hin.
  destruct (An r Hin) as (_ & _ & _ & H4 & H5). auto.
Qed.

Lemma record_endpoints_qualify_witness :
  qualifies ["Part: P1"; "cover"; "Part: P1"] 1 "P1" EmptyString
  /\ qualifies ["Part: P1"; "cover"; "Part: P1"] 3 "P1" EmptyString.
Proof.
  apply (record_endpoints_qualify ["Part: P1"; "cover"; "Part: P1"]
           (mkRange 1 3 "P1" EmptyString)).
  vm_compute. left. reflexivity.
Defined.

Lemma records_nil_iff (pages : list string) :
  records (compress pages) = []
  <-> Forall (fun text => extract_first_part text = None) pages.
Proof.
  destruct (compress_acc_inv pages) as (An & _ & _ & Co). split.
  - intros E. apply Forall_forall. intros text Hin.
    destruct (extract_first_part text) as [p|] eqn:P; [|reflexivity].
    apply In_nth_error in Hin. destruct Hin as [k Hk].
    destruct (Co (S k) p (page_asm text)) as (r & Hr & _).
    { exists text. auto. }
    rewrite E in Hr. destruct Hr.
  - intros F. destruct (records (compress pages)) as [|r l] eqn:E;
      [reflexivity|].
    rewrite Forall_forall in An.
    destruct (An r) as (_ & _ & _ & (text & H & P & _) & _).
    { apply in_rev. rewrite rev_involutive. left. reflexivity. }
    rewrite Forall_forall in F. destruct (start_page r) as [|k];
      [discriminate H|].
    apply nth_error_In in H. rewrite (F _ H) in P. discriminate P.
Qed.

Lemma document_rows_nil_iff (name : string) (pages : list string) :
  document_rows name pages = [] <-> records (compress pages) = [].
Proof.
  unfold document_rows. destruct (records (compress pages)) as [|r l].
  - split; reflexivity.
  - split; [|discriminate]. destruct (opt_or_None _); discriminate.
Qed.

(** X10.  A document has no records exactly when none of its pages yields a
    Part, and it contributes no row to the report exactly when it has no
    records. *)
Theorem no_records_iff (name : string) (pages : list string) :
  (records (compress pages) = []
   <-> Forall (fun text => extract_first_part text = None) pages)
  /\ (document_rows name pages = [] <-> records (compress pages) = []).
Proof. split; [apply records_nil_iff | apply document_rows_nil_iff]. Qed.

Lemma fold_absorb_same (p a : string) (rest : list string) (s e i : nat) :
  Forall (fun text => extract_first_part text = Some p /\ page_asm text = a)
         rest ->
  fold_left absorb (enumerate i rest) [mkRange s e p a]
  = [mkRange s (match rest with [] => e | _ => i + List.length rest - 1 end)
             p a].
Proof.
  revert e i. induction rest as [|t rest IH]; intros e i F; [reflexivity|].
  inversion F as [|? ? [P A] F']; subst.
  cbn [enumerate fold_left]. unfold absorb at 2. cbn [fst snd part asm].
  rewrite P, !String.eqb_refl. cbn [andb start_page].
  rewrite (IH i (S i) F'). f_equal. f_equal.
  destruct rest; cbn [List.length]; lia.
Qed.

(** X11.  A document with at least one page whose pages all yield the same
    part and asm has the single record from page 1 to its last page. *)
Theorem run_merge (pages : list string) (p a : string) :
  pages <> [] ->
  Forall (fun text => extract_first_part text = Some p /\ page_asm text = a)
         pages ->
  records (compress pages) = [mkRange 1 (List.length pages) p a].
Proof.
  intros Ne F. rewrite <- (rev_involutive (records (compress pages))).
  rewrite compress_absorb. destruct pages as [|t rest]; [contradiction|].
  inversion F as [|? ? [P A] F']; subst.
  cbn [enumerate fold_left]. unfold absorb at 2. cbn [fst snd].
  rewrite P. rewrite (fold_absorb_same p (page_asm t) rest 1 1 2 F').
  cbn [rev app]. f_equal. f_equal.
  destruct rest; cbn [List.length]; lia.
Qed.

Lemma run_merge_witness :
  records (compress ["Part: P1"; "part : P1 "; "PART:P1/P2"])
  = [mkRange 1 3 "P1" EmptyString].
Proof.
  apply (run_merge ["Part: P1"; "part : P1 "; "PART:P1/P2"] "P1" EmptyString);
    [discriminate|].
  repeat (constructor; [split; vm_compute; reflexivity|]). constructor.
Defined.

Lemma enumerate_app {A : Type} (l1 l2 : list A) (i : nat) :
  enumerate i (l1 ++ l2)%list
  = (enumerate i l1 ++ enumerate (i + List.length l1) l2)%list.
Proof.
  revert i. induction l1 as [|x l1 IH]; intros i; cbn.
  - rewrite Nat.add_0_r. reflexivity.
  - rewrite IH. do 3 f_equal. lia.
Qed.

Lemma enumerate_lower {A : Type} (l : list A) (m i : nat) :
  m <= i -> Forall (fun ip => m <= fst ip) (enumerate i l).
Proof.
  revert i. induction l as [|x l IH]; intros i H; cbn; constructor.
  - exact H.
  - apply IH. lia.
Qed.

Lemma fold_absorb_tail (m : nat) (l : list (nat * string)) (r : RangeRecord)
    (tl : list RangeRecord) :
  Forall (fun ip => m <= fst ip) l -> m <= end_page r ->
  exists (new : list RangeRecord) (r' : RangeRecord),
    fold_left absorb l (r :: tl) = (new ++ r' :: tl)%list
    /\ start_page r' = start_page r /\ m <= end_page r'
    /\ part r' = part r /\ asm r' = asm r.
Proof.
  revert r tl. induction l as [|ip l IH]; intros r tl F M.
  - exists [], r. auto.
  - inversion F as [|? ? Fi F']; subst.
    cbn [fold_left]. unfold absorb at 2.
    destruct (extract_first_part (snd ip)) as [p|]; [|apply IH; assumption].
    destruct (String.eqb_spec p (part r)) as [Ep|Dp];
      [destruct (String.eqb_spec (page_asm (snd ip)) (asm r)) as [Ea|Da]|];
      cbn [andb].
    + destruct (IH (mkRange (start_page r) (fst ip) p (page_asm (snd ip))) tl
                   F' Fi) as (new & r' & E & Hs & He & Hp & Ha).
      exists new, r'. cbn in Hs, Hp, Ha. rewrite E.
      repeat split; congruence.
    + destruct (IH (mkRange (fst ip) (fst ip) p (page_asm (snd ip)))
                   (r :: tl) F' Fi) as (new & r' & E & _).
      exists (new ++ [r'])%list, r. rewrite E, <- app_assoc. auto.
    + destruct (IH (mkRange (fst ip) (fst ip) p (page_asm (snd ip)))
                   (r :: tl) F' Fi) as (new & r' & E & _).
      exists (new ++ [r'])%list, r. rewrite E, <- app_assoc. auto.
Qed.

(** X12.  Pages added at the end of a document leave every record but the last
    as it is; the last keeps its start, part and asm and its end does not
    move back. *)
Theorem closed_records_stay (pages more : list string)
    (closed : list RangeRecord) (r : RangeRecord) :
  records (compress pages) = (closed ++ [r])%list ->
  exists (r' : RangeRecord) (later : list RangeRecord),
    records (compress (pages ++ more)) = (closed ++ r' :: later)%list
    /\ start_page r' = start_page r /\ end_page r <= end_page r'
    /\ part r' = part r /\ asm r' = asm r.
Proof.
  intros R.
  assert (E : rev (records (compress (pages ++ more)))
              = fold_left absorb
                  (enumerate (1 + List.length pages) more)
                  (rev (records (compress pages)))).
  { rewrite !compress_absorb, enumerate_app, fold_left_app. reflexivity. }
  assert (B : end_page r <= List.length pages).
  { destruct (compress_acc_inv pages) as (An & _).
    rewrite R, rev_unit in An. inversion An as [|? ? (_ & _ & H & _) _].
    exact H. }
  apply (f_equal (@rev _)) in E. rewrite rev_involutive in E.
  rewrite R, rev_unit in E.
  destruct (fold_absorb_tail (end_page r)
              (enumerate (1 + List.length pages) more) r (rev closed))
    as (new & r' & F & Hs & He & Hp & Ha).
  { apply enumerate_lower. lia. }
  { lia. }
  rewrite F, rev_app_distr in E. cbn [rev] in E.
  rewrite rev_involutive, <- app_assoc in E. cbn [app] in E.
  exists r', (rev new). auto.
Qed.

Lemma closed_records_stay_witness :
  exists (r' : RangeRecord) (later : list RangeRecord),
    records (compress (["Part: P1"; "Part: P2"] ++ ["Part: P2"; "Part: P3"]))
    = ([mkRange 1 1 "P1" EmptyString] ++ r' :: later)%list
    /\ start_page r' = 2 /\ 2 <= end_page r'
    /\ part r' = "P2" /\ asm r' = EmptyString.
Proof.
  apply (closed_records_stay ["Part: P1"; "Part: P2"] ["Part: P2"; "Part: P3"]
           [mkRange 1 1 "P1" EmptyString] (mkRange 2 2 "P2" EmptyString)).
  vm_compute. reflexivity.
Defined.

Lemma rstrip_app_space (s w : string) :
  string_forall is_space w = true -> rstrip (s ++ w) = rstrip s.
Proof.
  intros W. assert (E : rstrip w = EmptyString).
  { induction w as [|c w IH]; [reflexivity|]. simpl in *.
    apply andb_prop in W. destruct W as [Wc Ww]. rewrite (IH Ww), Wc.
    reflexivity. }
  induction s as [|c s IH]; simpl; [exact E | rewrite IH; reflexivity].
Qed.

Lemma rstrip_nonempty (t : string) :
  rstrip t = t -> t <> EmptyString -> rstrip t <> EmptyString.
Proof. intros ->. auto. Qed.

Lemma rstrip_app_fixed (s t : string) :
  rstrip t = t -> t <> EmptyString -> rstrip (s ++ t) = s ++ t.
Proof.
  intros F Ne. induction s as [|c s IH]; simpl; [exact F|].
  rewrite IH. destruct (s ++ t) eqn:E; [|reflexivity].
  destruct s; simpl in E; [contradiction | discriminate E].
Qed.

Lemma strip_fixed_rstrip (v : string) : strip v = v -> rstrip v = v.
Proof.
  intros H. rewrite <- H at 1. unfold strip. rewrite rstrip_idem. exact H.
Qed.

Lemma join_lines_snoc (body : list string) (row : string) :
  body <> [] -> join_lines (body ++ [row]) = join_lines body ++ nl ++ row.
Proof.
  induction body as [|r body IH]; intros Ne; [contradiction|].
  destruct body as [|r' body]; [reflexivity|].
  change (join_lines ((r :: r' :: body) ++ [row]))
    with (r ++ nl ++ join_lines ((r' :: body) ++ [row])).
  rewrite IH by discriminate.
  change (join_lines (r :: r' :: body))
    with (r ++ nl ++ join_lines (r' :: body)).
  rewrite !str_app_assoc. reflexivity.
Qed.

Lemma join_lines_last (body : list string) (row : string) :
  exists pre : string, join_lines (body ++ [row]) = pre ++ row.
Proof.
  destruct body as [|r body].
  - exists EmptyString. reflexivity.
  - exists (join_lines (r :: body) ++ nl).
    rewrite join_lines_snoc by discriminate. rewrite str_app_assoc. reflexivity.
Qed.

Lemma record_part_clean (pages : list string) (r : RangeRecord) :
  In r (records (compress pages)) ->
  part r <> EmptyString /\ rstrip (part r) = part r.
Proof.
  intros Hin. destruct (compress_acc_inv pages) as (An & _).
  rewrite Forall_forall in An. apply in_rev in Hin.
  destruct (An r Hin) as (_ & _ & _ & (text & _ & P & _) & _).
  destruct (part_stripped _ _ P) as (Ne & S).
  split; [exact Ne | apply strip_fixed_rstrip; exact S].
Qed.

(** The rows of a document that has records end with its last record
    and a blank row. *)
Lemma document_rows_shape (name : string) (pages : list string) :
  document_rows name pages = []
  \/ exists (front : list string) (r : RangeRecord),
       document_rows name pages = (front ++ [format_row r; EmptyString])%list
       /\ In r (records (compress pages)).
Proof.
  unfold document_rows.
  destruct (records (compress pages)) as [|r0 rs] eqn:E; [left; reflexivity|].
  right. destruct (exists_last (l := r0 :: rs)) as (init & r & Er);
    [discriminate|].
  rewrite Er, map_app. cbn [map].
  exists ((match opt_or_None (job (compress pages)) with
           | Some j => [job_line j]
           | None => []
           end) ++ [file_line name] ++ map format_row init)%list, r.
  split.
  - rewrite <- !app_assoc. reflexivity.
  - apply in_or_app. right. left. reflexivity.
Qed.

Lemma main_rows_shape (pdfs : list (string * list string)) :
  main_rows pdfs = []
  \/ exists (front : list string) (r : RangeRecord)
            (pdf : string * list string),
       main_rows pdfs = (front ++ [format_row r; EmptyString])%list
       /\ In pdf pdfs /\ In r (records (compress (snd pdf))).
Proof.
  induction pdfs as [|pdf pdfs IH]; [left; reflexivity|].
  unfold main_rows. cbn [flat_map]. fold (main_rows pdfs).
  destruct IH as [E | (front & r & pdf' & E & Hin & Hr)].
  - rewrite E, app_nil_r.
    destruct (document_rows_shape (fst pdf) (snd pdf))
      as [D | (front & r & D & Hr)]; [left; exact D|].
    right. exists front, r, pdf. split; [exact D|].
    split; [left; reflexivity | exact Hr].
  - right. exists (document_rows (fst pdf) (snd pdf) ++ front)%list, r, pdf'.
    rewrite E, <- app_assoc. split; [reflexivity|].
    split; [right; exact Hin | exact Hr].
Qed.

Lemma format_row_ends (r : RangeRecord) :
  exists pre : string, format_row r = pre ++ part r.
Proof.
  exists (page_label r ++ "  Asm: " ++ asm r ++ "  Part: ").
  unfold format_row. rewrite !str_app_assoc. reflexivity.
Qed.

Lemma output_text_body (pdfs : list (string * list string)) :
  main_rows pdfs <> [] ->
  exists body : list string,
    body <> [] /\ main_rows pdfs = (body ++ [EmptyString])%list
    /\ output_text (main_rows pdfs) = join_lines body ++ nl.
Proof.
  intros Ne. destruct (main_rows_shape pdfs)
    as [E | (front & r & pdf & E & _ & Hr)]; [contradiction|].
  exists (front ++ [format_row r])%list.
  split; [destruct front; discriminate|].
  split; [rewrite E, <- app_assoc; reflexivity|].
  unfold output_text. rewrite E.
  change [format_row r; EmptyString]
    with ([format_row r] ++ [EmptyString])%list.
  rewrite app_assoc, join_lines_snoc by (destruct front; discriminate).
  rewrite <- str_app_assoc, str_app_nil_r.
  rewrite rstrip_app_space by reflexivity.
  destruct (join_lines_last front (format_row r)) as (pre & ->).
  destruct (format_row_ends r) as (pre' & ->).
  destruct (record_part_clean _ _ Hr) as (Pn & Pr).
  rewrite <- str_app_assoc, (rstrip_app_fixed _ _ Pr Pn). reflexivity.
Qed.

(** X13.  When [main] writes a report, the text is the rows, one per line and
    each ended by a line feed, without the final blank row; the count it
    prints is the number of rows, the blank one included. *)
Theorem report_text (pdfs : list (string * list string)) (text : string)
    (n : nat) :
  report pdfs = Wrote text n ->
  exists body : list string,
    body <> [] /\ main_rows pdfs = (body ++ [EmptyString])%list
    /\ text = join_lines body ++ nl /\ n = S (List.length body).
Proof.
  unfold report. destruct pdfs as [|pdf pdfs]; [discriminate|].
  intros H. pose proof (output_text_body (pdf :: pdfs)) as B.
  destruct (main_rows (pdf :: pdfs)) as [|row rows]; [discriminate H|].
  destruct B as (body & Nb & Eb & Et); [discriminate|].
  injection H as <- <-. exists body.
  split; [exact Nb|]. split; [exact Eb|]. split; [exact Et|].
  apply (f_equal (@List.length _)) in Eb. rewrite length_app in Eb.
  simpl in *. lia.
Qed.

Lemma report_text_witness :
  exists body : list string,
    body <> []
    /\ main_rows [("a.pdf", ["Job: 7" ++ nl ++ "Part: P1"])]
       = (body ++ [EmptyString])%list
    /\ "Job: 7" ++ nl ++ "File: a.pdf" ++ nl ++ "Page 1  Asm:   Part: P1" ++ nl
       = join_lines body ++ nl
    /\ 4 = S (List.length body).
Proof.
  apply (report_text [("a.pdf", ["Job: 7" ++ nl ++ "Part: P1"])]).
  vm_compute. reflexivity.
Defined.

Lemma main_rows_nil_iff (pdfs : list (string * list string)) :
  main_rows pdfs = []
  <-> Forall (fun pdf =>
                Forall (fun text => extract_first_part text = None) (snd pdf))
             pdfs.
Proof.
  induction pdfs as [|pdf pdfs IH].
  - split; [constructor | reflexivity].
  - unfold main_rows. cbn [flat_map]. fold (main_rows pdfs). split.
    + intros H. apply app_eq_nil in H. destruct H as [H1 H2].
      constructor; [|apply IH; exact H2].
      apply records_nil_iff. apply (document_rows_nil_iff (fst pdf)). exact H1.
    + intros H. inversion H as [|? ? H1 H2]; subst.
      apply IH in H2. rewrite H2, app_nil_r.
      apply document_rows_nil_iff. apply records_nil_iff. exact H1.
Qed.

(** X14.  [main] writes nothing exactly when no page of any document yields a
    Part. *)
Theorem nothing_written_iff (pdfs : list (string * list string)) :
  (report pdfs = No_PDFs_found \/ report pdfs = No_Part_values_found)
  <-> Forall (fun pdf =>
                Forall (fun text => extract_first_part text = None) (snd pdf))
             pdfs.
Proof.
  rewrite <- main_rows_nil_iff. unfold report.
  destruct pdfs as [|pdf pdfs]; [split; auto|].
  destruct (main_rows (pdf :: pdfs)) as [|row rows].
  - split; auto.
  - split; [intros [H|H]; discriminate H | discriminate].
Qed.

(** *** Reading the job back from the report *)

Lemma splitlines_first (line rest : string) :
  string_forall no_break line = true ->
  splitlines (line ++ String LF rest) = line :: splitlines rest.
Proof.
  induction line as [|c line IH]; intros F.
  - simpl append. cbn [splitlines].
    replace (is_line_break LF) with true by reflexivity.
    replace (Ascii.eqb LF CR) with false by reflexivity.
    destruct rest; reflexivity.
  - simpl in F. apply andb_prop in F. destruct F as [Fc Fl].
    simpl append. cbn [splitlines]. unfold no_break in Fc.
    destruct (is_line_break c); [discriminate Fc|].
    rewrite (IH Fl). reflexivity.
Qed.

Lemma splitlines_no_break (s : string) :
  Forall (fun line => string_forall no_break line = true) (splitlines s).
Proof.
  assert (G : forall n s, length s <= n ->
              Forall (fun line => string_forall no_break line = true)
                     (splitlines s)).
  { clear s. induction n as [|n IH]; intros [|c s] L; try constructor;
      simpl in L; try lia.
    cbn [splitlines]. destruct (is_line_break c) eqn:B.
    - constructor; [reflexivity|]. destruct s as [|d s']; [constructor|].
      destruct (_ && _); apply IH; simpl in *; lia.
    - assert (H : Forall (fun line => string_forall no_break line = true)
                         (splitlines s)) by (apply IH; lia).
      destruct (splitlines s) as [|line lines].
      + constructor; [|constructor]. simpl. unfold no_break. rewrite B.
        reflexivity.
      + inversion H; subst. constructor; [|assumption].
        simpl. unfold no_break at 1. rewrite B. assumption. }
  apply (G (length s)). lia.
Qed.

Lemma first_job_found (pages : list string) (j : string) :
  first_job pages = Some j ->
  exists text : string, In text pages /\ extract_first_job text = Some j.
Proof.
  induction pages as [|t l IH]; simpl; [discriminate|].
  destruct (extract_first_job t) as [v|] eqn:J.
  - intros H. injection H as <-. exists t. auto.
  - intros H. destruct (IH H) as (text & Hin & E). exists text. auto.
Qed.

Lemma job_clean (pages : list string) (j : string) :
  job (compress pages) = Some j ->
  j <> EmptyString /\ strip j = j.
Proof.
  rewrite compress_job. intros H. apply first_job_found in H.
  destruct H as (text & _ & E). exact (value_stripped _ _ _ E).
Qed.

Lemma job_line_read (j : string) (rest : list string) :
  j <> EmptyString -> strip j = j ->
  first_job_line (job_line j :: rest) = Some j.
Proof.
  intros Ne S. cbn [first_job_line].
  assert (R : rstrip j = j) by (apply strip_fixed_rstrip; exact S).
  assert (St : strip (job_line j) = job_line j).
  { unfold strip, job_line.
    change (lstrip ("Job: " ++ j)) with ("Job: " ++ j).
    apply rstrip_app_fixed; assumption. }
  rewrite St. unfold job_line.
  change (starts_with "job:" (lower ("Job: " ++ j))) with true.
  change (after_colon ("Job: " ++ j)) with (Some (" " ++ j)).
  cbv iota beta.
  change (strip (" " ++ j)) with (strip j). rewrite S.
  apply or_None_of_nonempty. exact Ne.
Qed.

Lemma report_wrote (pdfs : list (string * list string)) (text : string)
    (n : nat) :
  report pdfs = Wrote text n ->
  main_rows pdfs <> [] /\ text = output_text (main_rows pdfs).
Proof.
  unfold report. destruct pdfs as [|pdf pdfs]; [discriminate|].
  destruct (main_rows (pdf :: pdfs)) as [|row rows]; [discriminate|].
  intros H. injection H as <- _. split; [discriminate | reflexivity].
Qed.

Lemma document_rows_with_job (name : string) (pages : list string)
    (j : string) :
  records (compress pages) <> [] ->
  job (compress pages) = Some j ->
  document_rows name pages
  = (job_line j :: file_line name
       :: map format_row (records (compress pages)) ++ [EmptyString])%list.
Proof.
  intros Ne J. unfold document_rows.
  destruct (job_clean _ _ J) as (Jn & _).
  rewrite J. cbn [opt_or_None]. rewrite (or_None_of_nonempty j Jn).
  destruct (records (compress pages)); [contradiction | reflexivity].
Qed.

(** X15.  When the first document that has records has the job [j], and [j]
    holds none of the line boundaries of [splitlines],
    [get_job_from_parts_txt] reads [j] back from the report [main] wrote
    (the file being read as it was written). *)
Theorem job_round_trip (skipped rest : list (string * list string))
    (name : string) (pages : list string) (j text : string) (n : nat) :
  Forall (fun pdf =>
            Forall (fun t => extract_first_part t = None) (snd pdf))
         skipped ->
  records (compress pages) <> [] ->
  job (compress pages) = Some j ->
  string_forall no_break j = true ->
  report (skipped ++ (name, pages) :: rest)%list = Wrote text n ->
  get_job_from_parts_txt (Some text) = Some j.
Proof.
  intros Sk Ne J Nb W. apply report_wrote in W. destruct W as [Nr ->].
  destruct (output_text_body _ Nr) as (body & _ & Eb & ->).
  assert (E : main_rows (skipped ++ (name, pages) :: rest)%list
              = (job_line j :: file_line name
                   :: (map format_row (records (compress pages))
                         ++ [EmptyString]) ++ main_rows rest)%list).
  { unfold main_rows. rewrite flat_map_app. fold (main_rows skipped).
    apply main_rows_nil_iff in Sk. rewrite Sk. cbn [app flat_map fst snd].
    rewrite (document_rows_with_job name pages j Ne J). reflexivity. }
  rewrite E in Eb.
  destruct body as [|b0 [|b1 body]].
  - discriminate Eb.
  - cbn in Eb. injection Eb as _ Eb. discriminate Eb.
  - cbn [app] in Eb. injection Eb as <- _ _.
    change (join_lines (job_line j :: b1 :: body))
      with (job_line j ++ nl ++ join_lines (b1 :: body)).
    destruct (job_clean _ _ J) as (Jn & Js).
    unfold get_job_from_parts_txt. rewrite !str_app_assoc.
    change (nl ++ join_lines (b1 :: body) ++ nl)
      with (String LF (join_lines (b1 :: body) ++ nl)).
    rewrite splitlines_first.
    + apply job_line_read; assumption.
    + unfold job_line. rewrite string_forall_app, Nb. reflexivity.
Qed.

Lemma job_round_trip_witness :
  get_job_from_parts_txt
    (Some ("Job: 500" ++ nl ++ "File: b.pdf" ++ nl
             ++ "Page 1  Asm:   Part: P1" ++ nl))
  = Some "500".
Proof.
  apply (job_round_trip [("a.pdf", ["cover"])] [] "b.pdf"
           ["Job: 500" ++ nl ++ "Part: P1"] "500" _ 4).
  - repeat constructor.
  - vm_compute. intros C. discriminate C.
  - vm_compute. reflexivity.
  - vm_compute. reflexivity.
  - vm_compute. reflexivity.
Defined.

(** X16.  A job returned by [get_job_from_parts_txt] is never empty, has no
    leading or trailing whitespace and holds no line boundary. *)
Theorem read_job_clean (content : option string) (j : string) :
  get_job_from_parts_txt content = Some j ->
  j <> EmptyString /\ strip j = j /\ string_forall no_break j = true.
Proof.
  destruct content as [text|]; [|discriminate]. cbn [get_job_from_parts_txt].
  pose proof (splitlines_no_break text) as F.
  induction (splitlines text) as [|line lines IH]; [discriminate|].
  inversion F as [|? ? Fl Fr]; subst. cbn [first_job_line].
  destruct (starts_with "job:" (lower (strip line))); [|exact (IH Fr)].
  destruct (after_colon line) as [v|] eqn:A; [|discriminate].
  intros H. apply or_None_Some in H. destruct H as [-> Ne].
  split; [exact Ne|]. split; [apply strip_idem|].
  assert (P : piece_of v line).
  { clear - A. revert v A. induction line as [|c line IH]; intros v A;
      [discriminate|]. cbn [after_colon] in A.
    destruct (Ascii.eqb c ":").
    - injection A as <-. exists (String c EmptyString), EmptyString.
      simpl. rewrite str_app_nil_r. reflexivity.
    - destruct (IH v A) as (pre & post & ->).
      exists (String c pre), post. reflexivity. }
  apply (string_forall_piece _ _ line); [|exact Fl].
  apply (piece_of_trans _ v); [apply strip_piece | exact P].
Qed.

Lemma read_job_clean_witness :
  "7" <> EmptyString /\ strip "7" = "7" /\ string_forall no_break "7" = true.
Proof.
  apply (read_job_clean (Some ("File: a.pdf" ++ nl ++ "  JOB :x" ++ nl
                                 ++ " job:  7 "))).
  vm_compute. reflexivity.
Defined.

Lemma after_colon_found (a b : string) :
  after_colon (a ++ String ":" b) <> None.
Proof.
  induction a as [|c a IH]; simpl; [discriminate|].
  destruct (Ascii.eqb c ":"); [discriminate | exact IH].
Qed.

Lemma job_line_has_colon (line : string) :
  starts_with "job:" (lower (strip line)) = true ->
  after_colon line <> None.
Proof.
  intros H. destruct (strip_piece line) as (pre & post & E).
  destruct (strip line) as [|c0 [|c1 [|c2 [|c3 rest]]]];
    cbn [lower starts_with] in H; rewrite ?andb_false_r in H;
    try discriminate H.
  apply andb_prop in H. destruct H as [_ H].
  apply andb_prop in H. destruct H as [_ H].
  apply andb_prop in H. destruct H as [_ H].
  apply andb_prop in H. destruct H as [H _].
  rewrite Ascii.eqb_sym in H. apply (literal_colon c3) in H. subst c3.
  rewrite E.
  change (pre ++ String c0 (String c1 (String c2 (String ":" rest))) ++ post)
    with (pre ++ String c0 (String c1 (String c2 (String ":" (rest ++ post))))).
  replace (pre ++ String c0 (String c1 (String c2 (String ":" (rest ++ post)))))
    with ((pre ++ String c0 (String c1 (String c2 EmptyString)))
            ++ String ":" (rest ++ post))
    by (rewrite str_app_assoc; reflexivity).
  apply after_colon_found.
Qed.

(** X17.  In [get_job_from_parts_txt] the first line that, stripped and
    lower-cased, starts with job: decides the result, whatever follows it:
    the result is the text after its first colon, stripped, or nothing when
    that is empty; and splitting such a line at the colon never fails. *)
Theorem first_job_line_decides (before after : list string) (line : string) :
  Forall (fun l => starts_with "job:" (lower (strip l)) = false) before ->
  starts_with "job:" (lower (strip line)) = true ->
  exists v : string,
    after_colon line = Some v
    /\ first_job_line (before ++ line :: after) = or_None (strip v).
Proof.
  intros Fb Hl. pose proof (job_line_has_colon line Hl) as C.
  destruct (after_colon line) as [v|] eqn:A; [|contradiction].
  exists v. split; [reflexivity|].
  induction before as [|l before IH]; cbn [app first_job_line].
  - rewrite Hl, A. reflexivity.
  - inversion Fb as [|? ? Fl Fr]; subst. rewrite Fl. apply IH. exact Fr.
Qed.

Lemma first_job_line_decides_witness :
  exists v : string,
    after_colon " JOB:  " = Some v
    /\ first_job_line (["File: a.pdf"; "Page 1  Asm:   Part: P"]
                         ++ " JOB:  " :: ["Job: 5"])
       = or_None (strip v).
Proof.
  apply first_job_line_decides; [|vm_compute; reflexivity].
  repeat (constructor; [vm_compute; reflexivity|]). constructor.
Defined.

(** *** Folder names *)

Lemma replace_forbidden_allowed (name : string) :
  string_forall allowed (replace_forbidden name) = true.
Proof.
  induction name as [|c s IH]; simpl; [reflexivity|]. rewrite IH.
  unfold allowed. destruct (forbidden c) eqn:F; [reflexivity|].
  rewrite F. reflexivity.
Qed.

Lemma replace_forbidden_fixed (name : string) :
  string_forall allowed name = true -> replace_forbidden name = name.
Proof.
  induction name as [|c s IH]; simpl; [reflexivity|]. intros H.
  apply andb_prop in H. destruct H as [Hc Hs]. rewrite (IH Hs).
  unfold allowed in Hc. destruct (forbidden c); [discriminate Hc|reflexivity].
Qed.

Lemma rstrip_dots_split (s : string) :
  exists post : string, s = rstrip_dots s ++ post.
Proof.
  induction s as [|c s (post & E)]; simpl.
  - exists EmptyString. reflexivity.
  - destruct (rstrip_dots s) as [|d r] eqn:R.
    + simpl in E. subst post. destruct (Ascii.eqb c ".").
      * exists (String c s). reflexivity.
      * exists s. reflexivity.
    + exists post. simpl in *. rewrite <- E. reflexivity.
Qed.

Lemma rstrip_dots_idem (s : string) :
  rstrip_dots (rstrip_dots s) = rstrip_dots s.
Proof.
  induction s as [|c s IH]; simpl; [reflexivity|].
  destruct (rstrip_dots s) as [|d r] eqn:R.
  - destruct (Ascii.eqb c ".") eqn:E; simpl; [reflexivity|].
    rewrite E. reflexivity.
  - cbn [rstrip_dots]. cbn [rstrip_dots] in IH. rewrite IH. reflexivity.
Qed.

Lemma rstrip_dots_no_lead (t : string) : no_lead t -> no_lead (rstrip_dots t).
Proof.
  destruct t as [|c t]; simpl; [auto|]. intros E.
  destruct (rstrip_dots t); [|exact E].
  destruct (Ascii.eqb c "."); [exact I | exact E].
Qed.

Lemma rstrip_dots_app (a b : string) :
  rstrip_dots a = a -> rstrip_dots (a ++ b) = a ++ rstrip_dots b.
Proof.
  induction a as [|c a IH]; intros F; [reflexivity|].
  simpl in F. simpl append. cbn [rstrip_dots].
  destruct (rstrip_dots a) as [|d r] eqn:R.
  - destruct (Ascii.eqb c ".") eqn:E; [discriminate F|].
    injection F as <-. simpl append.
    destruct (rstrip_dots b); reflexivity.
  - injection F as F. rewrite (IH F). rewrite <- F. reflexivity.
Qed.

(** X18.  The result of [safe_folder_name] holds none of the characters it
    replaces, does not end with a dot, does not start with whitespace and
    is no longer than the name. *)
Theorem safe_folder_name_safe (name : string) :
  string_forall allowed (safe_folder_name name) = true
  /\ rstrip_dots (safe_folder_name name) = safe_folder_name name
  /\ lstrip (safe_folder_name name) = safe_folder_name name
  /\ length (safe_folder_name name) <= length name.
Proof.
  unfold safe_folder_name.
  assert (P : piece_of (rstrip_dots (strip (replace_forbidden name)))
                       (replace_forbidden name)).
  { apply (piece_of_trans _ (strip (replace_forbidden name)));
      [|apply strip_piece].
    destruct (rstrip_dots_split (strip (replace_forbidden name))) as (post & E).
    exists EmptyString, post. exact E. }
  split; [|split; [|split]].
  - apply (string_forall_piece _ _ _ P). apply replace_forbidden_allowed.
  - apply rstrip_dots_idem.
  - apply lstrip_fix. apply rstrip_dots_no_lead.
    unfold strip. apply rstrip_no_lead, lstrip_no_lead.
  - destruct P as (pre & post & E).
    assert (L : length (replace_forbidden name) = length name).
    { clear. induction name as [|c s IH]; simpl; [reflexivity|].
      rewrite IH. reflexivity. }
    apply (f_equal length) in E. rewrite !str_length_app in E. lia.
Qed.

(** X19.  [safe_folder_name] returns unchanged a name that holds none of the
    replaced characters, has no surrounding whitespace and does not end
    with a dot. *)
Theorem safe_folder_name_fixed (name : string) :
  string_forall allowed name = true ->
  strip name = name -> rstrip_dots name = name ->
  safe_folder_name name = name.
Proof.
  intros A S D. unfold safe_folder_name.
  rewrite (replace_forbidden_fixed name A), S. exact D.
Qed.

Lemma safe_folder_name_fixed_witness :
  safe_folder_name "Job - 1001" = "Job - 1001".
Proof. apply safe_folder_name_fixed; vm_compute; reflexivity. Defined.

Lemma replace_forbidden_app (a b : string) :
  replace_forbidden (a ++ b) = replace_forbidden a ++ replace_forbidden b.
Proof.
  induction a as [|c a IH]; simpl; [reflexivity | rewrite IH; reflexivity].
Qed.

Lemma replace_forbidden_space (s : string) :
  rstrip s = s -> rstrip (replace_forbidden s) = replace_forbidden s.
Proof.
  induction s as [|c s IH]; simpl; [reflexivity|].
  destruct (rstrip s) as [|d r] eqn:R.
  - destruct (is_space c) eqn:Sp; [discriminate|]. intros H.
    injection H as <-. simpl.
    destruct (forbidden c) eqn:F; [reflexivity | rewrite Sp; reflexivity].
  - intros H. injection H as H. rewrite H in IH. rewrite (IH eq_refl).
    rewrite <- H. reflexivity.
Qed.

(** X20.  For a job that is not empty and has no surrounding whitespace, the
    folder name is "Job - " followed by the job with the replaced
    characters turned into underscores and trailing dots removed. *)
Theorem job_folder_name (job : string) :
  job <> EmptyString -> strip job = job ->
  job_folder job = "Job - " ++ rstrip_dots (replace_forbidden job).
Proof.
  intros Ne S. unfold job_folder, safe_folder_name.
  rewrite replace_forbidden_app.
  change (replace_forbidden "Job - ") with "Job - ".
  assert (R : rstrip (replace_forbidden job) = replace_forbidden job).
  { apply replace_forbidden_space. apply strip_fixed_rstrip. exact S. }
  assert (N : replace_forbidden job <> EmptyString).
  { destruct job; [contradiction | discriminate]. }
  unfold strip. change (lstrip ("Job - " ++ replace_forbidden job))
    with ("Job - " ++ replace_forbidden job).
  rewrite (rstrip_app_fixed _ _ R N).
  apply rstrip_dots_app. reflexivity.
Qed.

Lemma job_folder_name_witness :
  job_folder "10/01 a.b." = "Job - " ++ "10_01 a.b".
Proof.
  apply (job_folder_name "10/01 a.b."); [discriminate | reflexivity].
Defined.

(** *** The destination of a moved file *)

Lemma decimal_inj (i j : nat) : decimal i = decimal j -> i = j.
Proof.
  unfold decimal. intros H. apply Unsigned.to_uint_inj.
  assert (E : Some (Nat.to_uint i) = Some (Nat.to_uint j)).
  { rewrite <- !NilEmpty.usu. rewrite H. reflexivity. }
  injection E as E. exact E.
Qed.

Lemma str_app_inv_head (a b c : string) : a ++ b = a ++ c -> b = c.
Proof.
  induction a as [|x a IH]; simpl; [auto|]. intros H. injection H as H. auto.
Qed.

Lemma str_app_inv_same_length (a b t u : string) :
  length a = length b -> a ++ t = b ++ u -> a = b.
Proof.
  revert b. induction a as [|x a IH]; intros [|y b] L H; try discriminate L.
  - reflexivity.
  - simpl in H. injection H as -> H. injection L as L.
    rewrite (IH b L H). reflexivity.
Qed.

Lemma candidate_inj (stem suffix : string) (i j : nat) :
  candidate stem suffix i = candidate stem suffix j -> i = j.
Proof.
  unfold candidate. intros H. apply str_app_inv_head in H.
  apply (str_app_inv_head " (") in H. apply decimal_inj.
  apply (str_app_inv_same_length _ _ _ _) in H; [exact H|].
  apply (f_equal length) in H. rewrite !str_length_app in H. lia.
Qed.

Lemma candidate_not_name (stem suffix : string) (i : nat) :
  candidate stem suffix i <> stem ++ suffix.
Proof.
  unfold candidate. intros H. apply (f_equal length) in H.
  rewrite !str_length_app in H. simpl in H. lia.
Qed.

Lemma first_free_Chosen (path_exists : string -> probe) (fuel : nat)
    (stem suffix : string) (i : nat) (dest : string) :
  first_free path_exists fuel stem suffix i = Chosen dest ->
  exists k : nat,
    k < fuel /\ dest = candidate stem suffix (i + k)
    /\ path_exists dest = Missing
    /\ forall k', k' < k ->
         path_exists (candidate stem suffix (i + k')) = Present.
Proof.
  revert i. induction fuel as [|fuel IH]; intros i H; [discriminate H|].
  cbn [first_free] in H.
  destruct (path_exists (candidate stem suffix i)) eqn:E; try discriminate H.
  - destruct (IH _ H) as (k & Hk & Hd & Hm & Hb).
    exists (S k). split; [lia|]. split; [rewrite Hd; f_equal; lia|].
    split; [exact Hm|]. intros [|k'] Hk'.
    + rewrite Nat.add_0_r. exact E.
    + replace (i + S k') with (S i + k') by lia. apply Hb. lia.
  - injection H as <-. exists 0. rewrite Nat.add_0_r.
    split; [lia|]. split; [reflexivity|]. split; [exact E|].
    intros k' Hk'. lia.
Qed.

Lemma first_free_finds (path_exists : string -> probe) (fuel : nat)
    (stem suffix : string) (i k : nat) :
  (forall k', k' < k ->
     path_exists (candidate stem suffix (i + k')) = Present) ->
  path_exists (candidate stem suffix (i + k)) = Missing ->
  k < fuel ->
  first_free path_exists fuel stem suffix i
  = Chosen (candidate stem suffix (i + k)).
Proof.
  revert i fuel. induction k as [|k IH]; intros i fuel Hb Hm Hk;
    (destruct fuel as [|fuel]; [lia|]); cbn [first_free].
  - rewrite Nat.add_0_r in Hm. rewrite Hm, Nat.add_0_r. reflexivity.
  - pose proof (Hb 0 (Nat.lt_0_succ k)) as H0. rewrite Nat.add_0_r in H0.
    rewrite H0. replace (i + S k) with (S i + k) in * by lia.
    apply IH; [|exact Hm | lia].
    intros k' Hk'. replace (S i + k') with (i + S k') by lia. apply Hb. lia.
Qed.

(** X21.  The destination [move_pdf] chooses is a name for which [exists()]
    answered False: the file's own name when the answer for it is False,
    and otherwise, the answer for it being True, the numbered name with
    the least number from 1 for which the answer is False, every lower
    number having been answered True.  The choice is made as soon as the
    rounds allowed reach that number.  Two numbers never give the same
    name, and no numbered name is the file's own name, so no name is
    asked about twice. *)
Theorem move_pdf_fresh (path_exists : string -> probe)
    (stem suffix : string) :
  (forall (fuel : nat) (dest : string),
     move_pdf path_exists fuel stem suffix = Chosen dest ->
     path_exists dest = Missing
     /\ (path_exists (stem ++ suffix) = Missing /\ dest = stem ++ suffix
         \/ path_exists (stem ++ suffix) = Present
            /\ exists i : nat,
                 1 <= i <= fuel /\ dest = candidate stem suffix i
                 /\ forall k, 1 <= k < i ->
                      path_exists (candidate stem suffix k) = Present))
  /\ (path_exists (stem ++ suffix) = Missing ->
      forall fuel : nat,
        move_pdf path_exists fuel stem suffix = Chosen (stem ++ suffix))
  /\ (forall i fuel : nat,
        path_exists (stem ++ suffix) = Present ->
        1 <= i <= fuel ->
        (forall k, 1 <= k < i ->
           path_exists (candidate stem suffix k) = Present) ->
        path_exists (candidate stem suffix i) = Missing ->
        move_pdf path_exists fuel stem suffix
        = Chosen (candidate stem suffix i))
  /\ (forall i j : nat,
        candidate stem suffix i = candidate stem suffix j -> i = j)
  /\ (forall i : nat, candidate stem suffix i <> stem ++ suffix).
Proof.
  split; [|split; [|split; [|split]]].
  - intros fuel dest H. unfold move_pdf in H.
    destruct (path_exists (stem ++ suffix)) eqn:E; try discriminate H.
    + destruct (first_free_Chosen _ _ _ _ _ _ H) as (k & Hk & Hd & Hm & Hb).
      split; [exact Hm|]. right. split; [reflexivity|].
      exists (1 + k). split; [lia|]. split; [exact Hd|].
      intros k' Hk'. replace k' with (1 + (k' - 1)) by lia. apply Hb. lia.
    + injection H as <-. split; [exact E|]. left. split; reflexivity.
  - intros E fuel. unfold move_pdf. rewrite E. reflexivity.
  - intros i fuel E Hi Hb Hm. unfold move_pdf. rewrite E.
    replace i with (1 + (i - 1)) in Hm |- * by lia.
    apply first_free_finds; [|exact Hm | lia].
    intros k' Hk'. apply Hb. lia.
  - intros i j. apply candidate_inj.
  - intros i. apply candidate_not_name.
Qed.

Lemma move_pdf_fresh_witness :
  move_pdf (fun name : string =>
              if existsb (String.eqb name) ["a.pdf"; "a (1).pdf"]
              then Present else Missing) 5 "a" ".pdf"
  = Chosen "a (2).pdf".
Proof.
  set (answers := fun name : string =>
                    if existsb (String.eqb name) ["a.pdf"; "a (1).pdf"]
                    then Present else Missing).
  destruct (move_pdf_fresh answers "a" ".pdf") as (_ & _ & F & _ & _).
  apply (F 2 5).
  - reflexivity.
  - lia.
  - intros k Hk. assert (k = 1) as -> by lia. reflexivity.
  - reflexivity.
Defined.

(** *** Page labels *)

Lemma string_of_uint_digits (d : Decimal.uint) :
  string_forall is_digit (NilEmpty.string_of_uint d) = true.
Proof. induction d; simpl; try rewrite IHd; reflexivity. Qed.

Lemma decimal_digits (n : nat) : string_forall is_digit (decimal n) = true.
Proof. apply string_of_uint_digits. Qed.

(** Digits followed by something that does not start with a digit can be
    read in one way only. *)
Lemma digits_prefix_unique (d1 d2 t1 t2 : string) :
  string_forall is_digit d1 = true -> string_forall is_digit d2 = true ->
  stops_digit t1 = true -> stops_digit t2 = true ->
  d1 ++ t1 = d2 ++ t2 -> d1 = d2 /\ t1 = t2.
Proof.
  revert d2. induction d1 as [|x d1 IH]; intros [|y d2] F1 F2 S1 S2 E;
    simpl in *.
  - auto.
  - subst t1. simpl in S1. apply andb_prop in F2. destruct F2 as [Fy _].
    rewrite Fy in S1. discriminate S1.
  - subst t2. simpl in S2. apply andb_prop in F1. destruct F1 as [Fx _].
    rewrite Fx in S2. discriminate S2.
  - injection E as -> E. apply andb_prop in F1. apply andb_prop in F2.
    destruct (IH d2 (proj2 F1) (proj2 F2) S1 S2 E) as [-> ->]. auto.
Qed.

Lemma page_label_parts (r : RangeRecord) :
  page_label r = "Page " ++ decimal (start_page r) ++ label_tail r.
Proof.
  unfold page_label, label_tail. destruct (start_page r =? end_page r).
  - rewrite str_app_nil_r. reflexivity.
  - reflexivity.
Qed.

(** X23.  Two records with the same page label have the same first and last
    page. *)
Theorem page_label_inj (r1 r2 : RangeRecord) :
  page_label r1 = page_label r2 ->
  start_page r1 = start_page r2 /\ end_page r1 = end_page r2.
Proof.
  rewrite !page_label_parts. intros H. apply (str_app_inv_head "Page ") in H.
  apply digits_prefix_unique in H; try apply decimal_digits;
    try (unfold label_tail; destruct (_ =? _); reflexivity).
  destruct H as [Hs Ht]. apply decimal_inj in Hs. split; [exact Hs|].
  unfold label_tail in Ht.
  destruct (Nat.eqb_spec (start_page r1) (end_page r1)) as [E1|N1],
           (Nat.eqb_spec (start_page r2) (end_page r2)) as [E2|N2];
    try discriminate Ht.
  - lia.
  - apply (str_app_inv_head "-") in Ht. apply decimal_inj. exact Ht.
Qed.

Lemma page_label_inj_witness :
  start_page (mkRange 3 7 "P" "A") = start_page (mkRange 3 7 "Q" "B")
  /\ end_page (mkRange 3 7 "P" "A") = end_page (mkRange 3 7 "Q" "B").
Proof. apply page_label_inj. reflexivity. Defined.
